(** * supabricks: connection management, query execution and catalog
      enumeration (src/db.py)

    A shallow embedding of [db.py]: the connection resolver
    [get_connection], the managed session [SparkSession] with its retrying
    [sql] method, and the catalog enumerator built on top of it.

    The program talks to two external collaborators, the databricks SQL
    connector and pandas.  Both are kept abstract: the connector is a record
    of operations over a hidden world state [W], each of which either
    returns or throws; pandas contributes the [DataFrame] constructor.
    Python code is written in a state-and-exception monad [M]; every call
    the program makes to the connector or to [time.sleep] is recorded in a
    trace, so that the order and number of external calls can be stated.

    Around this core the file also embeds the endpoints of [main.py] that
    build one SQL statement and run it, [utils.dict_to_sql_filter], the
    reading and writing of [.env] in [auth.py] and [cleartunnel.py], and
    the token handling of [auth.verify_pat]. *)

From Stdlib Require Import String Ascii List ZArith Bool Lia.
Import ListNotations.
Local Open Scope string_scope.
Local Open Scope Z_scope.

(** ** Python values and strings *)

(** A Python object as the program handles it.  The program only ever
    interpolates a value into an f-string, calls [startswith] on it or
    compares it with string literals, so a non-[str] object is represented
    by its [str()] rendering. *)
Inductive PyVal : Type :=
| PStr (s : string)
| PObj (repr : string).

(** What an f-string interpolates for [{v}]. *)
Definition py_str (v : PyVal) : string :=
  match v with
  | PStr s => s
  | PObj r => r
  end.

Definition PNone : PyVal := PObj "None".

(** [s.replace(old, new)] for a non-empty [old]: the occurrences of [old]
    are replaced from left to right without overlap.  [skip] counts the
    characters of an occurrence still to be dropped. *)
Fixpoint str_replace_from (skip : nat) (old new s : string) : string :=
  match s with
  | EmptyString => EmptyString
  | String c s' =>
      match skip with
      | S k => str_replace_from k old new s'
      | O =>
          if String.prefix old s
          then new ++ str_replace_from (String.length old - 1) old new s'
          else String c (str_replace_from 0 old new s')
      end
  end.

Definition str_replace (old new s : string) : string :=
  str_replace_from 0 old new s.

(** [s.split(sep)[0]] for a one-character separator. *)
Fixpoint split_head (sep : ascii) (s : string) : string :=
  match s with
  | EmptyString => EmptyString
  | String c s' =>
      if Ascii.eqb c sep then EmptyString else String c (split_head sep s')
  end.

(** [s.startswith(p)] *)
Definition startswith (s p : string) : bool := String.prefix p s.

(** [x in [...]] for strings. *)
Definition str_in (x : string) (l : list string) : bool :=
  existsb (String.eqb x) l.

(** ** Outcomes and exceptions *)

(** The exceptions of the model are all instances of Python's
    [Exception], the ones an [except Exception] clause catches. *)
Inductive Exn : Type :=
| ConnectorError (msg : string)   (* raised by the databricks connector *)
| PandasError (msg : string)      (* raised by pandas *)
| Exception (msg : string)        (* [raise Exception(...)] in db.py *)
| AttributeError (msg : string)
| KeyError (key : string).

(** The answer of an external call. *)
Inductive Reply (A : Type) : Type :=
| Returns (a : A)
| Throws (e : Exn).
Arguments Returns {A} a.
Arguments Throws {A} e.

(** The outcome of running a piece of the program.  [OutOfFuel] is not a
    Python outcome: it marks a run of the [while] loop of [sql] that was
    given too few iterations (see [sql_total]). *)
Inductive Outcome (A : Type) : Type :=
| Ok (a : A)
| Raise (e : Exn)
| OutOfFuel.
Arguments Ok {A} a.
Arguments Raise {A} e.
Arguments OutOfFuel {A}.

(** ** Data model *)

(** Handles of the connector's connection and cursor objects; as Python
    objects they are truthy, so [if self.connection] only asks whether
    the field is [None]. *)
Definition Conn := nat.
Definition Cursor := nat.

(** A pandas DataFrame: column labels and the rows in index order; the
    cells are the objects the program reads back from it. *)
Record DataFrame : Type := mkDataFrame {
  columns : list string;
  rows : list (list PyVal)
}.

(** [pd.DataFrame()] *)
Definition empty_DataFrame : DataFrame := mkDataFrame [] [].

(** [df.empty]: some axis has length zero. *)
Definition df_empty (df : DataFrame) : bool :=
  (Nat.eqb (List.length (columns df)) 0) || (Nat.eqb (List.length (rows df)) 0).

(** A Python dict with string keys, in insertion order. *)
Definition Dict := list (string * PyVal).

Fixpoint dict_set (d : Dict) (k : string) (v : PyVal) : Dict :=
  match d with
  | [] => [(k, v)]
  | (k', v') :: d' =>
      if String.eqb k' k then (k', v) :: d' else (k', v') :: dict_set d' k v
  end.

Fixpoint dict_get (d : Dict) (k : string) : option PyVal :=
  match d with
  | [] => None
  | (k', v') :: d' => if String.eqb k' k then Some v' else dict_get d' k
  end.

(** What [sql] gives back: a DataFrame, or Python's [None] when the
    function body ends without a [return]. *)
Inductive PyResult : Type :=
| RetDF (df : DataFrame)
| RetNone.

(** Calls made to the outside, in the order they happen. *)
Inductive Event : Type :=
| EConnect (server_hostname http_path : string) (access_token : option string)
| ECursor (c : Conn)
| EExecute (k : Cursor) (query : string)
| EFetchall (k : Cursor)
| ECursorClose (k : Cursor)
| EConnectionClose (c : Conn)
| ESleep (seconds : Z).

(** The databricks SQL connector over a world [W]. *)
Record Connector (W : Type) : Type := mkConnector {
  sql_connect : string -> string -> option string -> W -> Reply Conn * W;
  connection_cursor : Conn -> W -> Reply Cursor * W;
  cursor_execute : Cursor -> string -> W -> Reply unit * W;
  (* the [description] attribute: [None], or the column names [desc[0]] *)
  cursor_description : Cursor -> W -> Reply (option (list string));
  cursor_fetchall : Cursor -> W -> Reply (list (list PyVal)) * W;
  cursor_close : Cursor -> W -> Reply unit * W;
  connection_close : Conn -> W -> Reply unit * W
}.
Arguments sql_connect {W}.
Arguments connection_cursor {W}.
Arguments cursor_execute {W}.
Arguments cursor_description {W}.
Arguments cursor_fetchall {W}.
Arguments cursor_close {W}.
Arguments connection_close {W}.

(** What the program uses of pandas: [pd.DataFrame(data, columns=...)],
    and the rendering of the Series that [row[col]] yields when a column
    label is repeated. *)
Record Pandas : Type := mkPandas {
  pd_DataFrame : list (list PyVal) -> list string -> Reply DataFrame;
  Series_str : list PyVal -> string
}.

(** The process environment read by db.py. *)
Record Environ : Type := mkEnviron {
  DATABRICKS_HOST : option string;       (* auth.DATABRICKS_HOST, may be None *)
  DATABRICKS_TOKEN : option string;      (* os.getenv("DATABRICKS_TOKEN") *)
  os_getenv : string -> option string
}.

(** [os.getenv(key, default)] *)
Definition getenv_default (env : Environ) (key default : string) : string :=
  match os_getenv env key with
  | Some v => v
  | None => default
  end.

(** The text of the information_schema query, as db.py writes it. *)
Definition metadata_query : string :=
"SELECT 
            table_catalog as catalog, 
            table_schema as schema, 
            table_name as name,
            concat(table_catalog, '.', table_schema, '.', table_name) as full_name
        FROM information_schema.tables
        WHERE table_type = 'BASE TABLE'
        AND table_catalog NOT LIKE 'sys%'
        AND table_catalog NOT IN ('information_schema', 'system')
        ".

(** ** A small concrete engine

    Used to run the program on concrete inputs.  Its world counts how many
    [connect] and [execute] calls are still going to fail and remembers
    the statement last executed; it serves a catalog [main] with the
    schemas [sales], [sys_internal] and [empty], a catalog [broken] whose
    schemas cannot be listed, and the system catalogs. *)
Module Demo.

Record World : Type := mkWorld {
  failing_connects : nat;
  failing_executes : nat;
  last_query : string
}.

Definition answer (query : string) : DataFrame :=
  if String.eqb query metadata_query then
    mkDataFrame ["catalog"; "schema"; "name"; "full_name"]
                [[PStr "main"; PStr "sales"; PStr "orders"; PStr "main.sales.orders"]]
  else if String.eqb query "SHOW CATALOGS" then
    mkDataFrame ["catalog"] [[PStr "broken"]; [PStr "system"]; [PStr "main"]]
  else if String.eqb query "SHOW SCHEMAS IN main" then
    mkDataFrame ["databaseName"] [[PStr "sales"]; [PStr "sys_internal"]; [PStr "empty"]]
  else if String.eqb query "SHOW TABLES IN main.sales" then
    mkDataFrame ["database"; "tableName"; "isTemporary"]
                [[PStr "sales"; PStr "orders"; PObj "False"];
                 [PStr "sales"; PStr "customers"; PObj "False"]]
  else if String.eqb query "SELECT 1" then mkDataFrame ["1"] [[PObj "1"]]
  else mkDataFrame [] [].

Definition engine : Connector World :=
  mkConnector World
    (fun hostname http_path token w =>
       match failing_connects w with
       | S n => (Throws (ConnectorError "connection refused"),
                 mkWorld n (failing_executes w) (last_query w))
       | O => (Returns 1%nat, w)
       end)
    (fun c w => (Returns 7%nat, w))
    (fun k query w =>
       if String.eqb query "SHOW SCHEMAS IN broken"
       then (Throws (ConnectorError "catalog not found"), w)
       else
         match failing_executes w with
         | S n => (Throws (ConnectorError "temporarily unavailable"),
                   mkWorld (failing_connects w) n (last_query w))
         | O => (Returns tt, mkWorld (failing_connects w) 0 query)
         end)
    (fun k w => Returns (Some (columns (answer (last_query w)))))
    (fun k w => (Returns (rows (answer (last_query w))), w))
    (fun k w => (Returns tt, w))
    (fun c w => (Returns tt, w)).

Definition pandas : Pandas :=
  mkPandas (fun data cols => Returns (mkDataFrame cols data))
           (fun cells => "Series").

Definition environ : Environ :=
  mkEnviron (Some "https://adb-1234.5.azuredatabricks.net") (Some "dapi-token")
            (fun key => if String.eqb key "DATABRICKS_WAREHOUSE_ID" then Some "abc" else None).

(** A healthy engine, and engines whose first calls fail. *)
Definition healthy : World := mkWorld 0 0 "".
Definition flaky (executes : nat) : World := mkWorld 0 executes "".
Definition unreachable (connects : nat) : World := mkWorld connects 0 "".

End Demo.

(** An engine like [Demo.engine] that answers with [answer] and refuses
    the statements of [refused]. *)
Definition scripted_engine (refused : string -> bool) (answer : string -> DataFrame)
    : Connector Demo.World :=
  mkConnector Demo.World
    (fun hostname http_path token w =>
       match Demo.failing_connects w with
       | S n => (Throws (ConnectorError "connection refused"),
                 Demo.mkWorld n (Demo.failing_executes w) (Demo.last_query w))
       | O => (Returns 1%nat, w)
       end)
    (fun c w => (Returns 7%nat, w))
    (fun k query w =>
       if refused query
       then (Throws (ConnectorError "not found"), w)
       else
         match Demo.failing_executes w with
         | S n => (Throws (ConnectorError "temporarily unavailable"),
                   Demo.mkWorld (Demo.failing_connects w) n (Demo.last_query w))
         | O => (Returns tt, Demo.mkWorld (Demo.failing_connects w) 0 query)
         end)
    (fun k w => Returns (Some (columns (answer (Demo.last_query w)))))
    (fun k w => (Returns (rows (answer (Demo.last_query w))), w))
    (fun k w => (Returns tt, w))
    (fun c w => (Returns tt, w)).

(** An engine whose answer to the information_schema query holds a table
    of the catalog [system], with a [full_name] that is not
    [catalog.schema.name]. *)
Module Unfiltered.

Definition answer (query : string) : DataFrame :=
  if String.eqb query metadata_query then
    mkDataFrame ["catalog"; "schema"; "name"; "full_name"]
                [[PStr "system"; PStr "access"; PStr "audit"; PStr "audit"]]
  else Demo.answer query.

Definition engine : Connector Demo.World :=
  scripted_engine (String.eqb "SHOW SCHEMAS IN broken") answer.

End Unfiltered.

(** An engine whose catalog listing ends with a null name, after the
    catalogs [broken] and [main]. *)
Module Nameless.

Definition answer (query : string) : DataFrame :=
  if String.eqb query "SHOW CATALOGS" then
    mkDataFrame ["catalog"] [[PStr "broken"]; [PStr "main"]; [PNone]]
  else Demo.answer query.

Definition engine : Connector Demo.World :=
  scripted_engine (String.eqb "SHOW SCHEMAS IN broken") answer.

End Nameless.

(** An engine like [Demo.engine] on which the tables of the schema
    [main.empty] cannot be listed either. *)
Module Locked.

Definition refused (query : string) : bool :=
  orb (String.eqb query "SHOW SCHEMAS IN broken")
      (String.eqb query "SHOW TABLES IN main.empty").

Definition engine : Connector Demo.World := scripted_engine refused Demo.answer.

End Locked.

(** The durations of the [time.sleep] calls in a trace. *)
Definition sleeps_of (tr : list Event) : list Z :=
  flat_map (fun ev => match ev with ESleep z => [z] | _ => [] end) tr.

(** The sleeps of [k] consecutive failed attempts, the first of them made
    with [retries] failures already counted. *)
Fixpoint backoff (k : nat) (max_retries retries : Z) : list Z :=
  match k with
  | O => []
  | S k' =>
      (if retries + 1 <? max_retries then [2 ^ (retries + 1)] else [])
      ++ backoff k' max_retries (retries + 1)
  end.

(** The statements of the [execute] calls in a trace, and the paths of
    its [connect] calls. *)
Definition executes_of (tr : list Event) : list string :=
  flat_map (fun ev => match ev with EExecute _ q => [q] | _ => [] end) tr.

Definition connects_of (tr : list Event) : list string :=
  flat_map (fun ev => match ev with EConnect _ p _ => [p] | _ => [] end) tr.

Definition Zsum (l : list Z) : Z := fold_right Z.add 0 l.

(** [old in s] *)
Fixpoint contains (old s : string) : bool :=
  String.prefix old s ||
  match s with
  | EmptyString => false
  | String _ s' => contains old s'
  end.

(** ** The HTTP layer (main.py, utils.py) *)

(** [sep.join(l)] *)
Fixpoint str_join (sep : string) (l : list string) : string :=
  match l with
  | [] => ""
  | [x] => x
  | x :: l' => x ++ sep ++ str_join sep l'
  end.

(** The element [f"{k} = '{v}'"] of the comprehensions over [items()]. *)
Definition assignment (kv : string * PyVal) : string :=
  fst kv ++ " = '" ++ py_str (snd kv) ++ "'".

(** utils.dict_to_sql_filter *)
Definition dict_to_sql_filter (filter_dict : Dict) : string :=
  str_join " AND " (map assignment filter_dict).

(** What an endpoint hands to the framework: the value it returns, or
    the [HTTPException] it raises. *)
Inductive HttpReply (A : Type) : Type :=
| Answer (a : A)
| HTTPException (status_code : Z) (detail : string).
Arguments Answer {A} a.
Arguments HTTPException {A} status_code detail.

(** The JSON bodies of the mutating endpoints:
    [{"status": ..., "where": ...}] and [{"status": ..., "table": ...}]. *)
Inductive Body : Type :=
| StatusWhere (status : string) (where_filter : Dict)
| StatusTable (status table : string).

(** [str(e)] *)
Definition exn_str (e : Exn) : string :=
  match e with
  | ConnectorError msg => msg
  | PandasError msg => msg
  | Exception msg => msg
  | AttributeError msg => msg
  | KeyError key => "'" ++ key ++ "'"
  end.

(** [df.head(n)]: the first [n] rows, all but the last [-n] for a
    negative [n]. *)
Definition df_head (df : DataFrame) (n : Z) : DataFrame :=
  mkDataFrame (columns df)
    (if 0 <=? n then firstn (Z.to_nat n) (rows df)
     else firstn (List.length (rows df) - Z.to_nat (- n)) (rows df)).

(** models.ColumnDefinition and models.CreateTablePayload *)
Record ColumnDefinition : Type := mkColumnDefinition {
  col_name : string;
  col_type : string;
  col_comment : option string;
  col_nullable : bool
}.

Record CreateTablePayload : Type := mkCreateTablePayload {
  payload_table_name : string;
  payload_columns : list ColumnDefinition;
  payload_comment : option string;
  payload_location : option string;
  payload_partitioned_by : option (list string)
}.

(** The truth value of an optional string: [None] and [""] are false. *)
Definition truthy (o : option string) : option string :=
  match o with
  | Some EmptyString => None
  | o' => o'
  end.

(** One element of [columns_def] in [create_table]. *)
Definition column_def (col : ColumnDefinition) : string :=
  (col_name col ++ " " ++ col_type col
   ++ (if negb (col_nullable col) then " NOT NULL" else ""))
  ++ match truthy (col_comment col) with
     | Some c => " COMMENT '" ++ c ++ "'"
     | None => ""
     end.

(** The statement [create_table] builds. *)
Definition create_table_query (payload : CreateTablePayload) : string :=
  let columns_def := str_join ", " (map column_def (payload_columns payload)) in
  let query := "CREATE TABLE " ++ payload_table_name payload ++ " (" ++ columns_def ++ ")" in
  let query := match truthy (payload_comment payload) with
               | Some c => query ++ " COMMENT '" ++ c ++ "'"
               | None => query
               end in
  let query := match truthy (payload_location payload) with
               | Some l => query ++ " LOCATION '" ++ l ++ "'"
               | None => query
               end in
  match payload_partitioned_by payload with
  | Some (c :: cs) =>
      let partition_cols := str_join ", " (c :: cs) in
      query ++ " PARTITIONED BY (" ++ partition_cols ++ ")"
  | _ => query
  end.

(** ** The .env file (auth.py, cleartunnel.py)

    The three [save_..._to_env] functions read the file [.env] into a
    dict, add their entry and write the dict back.  The file is a text,
    [None] when it does not exist; reading and writing it are taken to
    succeed.  Characters are code points below 256. *)

(** [c.isspace()]: the code points 9 to 13, 28 to 32, 133 and 160. *)
Definition is_space (c : ascii) : bool :=
  let n := nat_of_ascii c in
  ((9 <=? n)%nat && (n <=? 13)%nat) || ((28 <=? n)%nat && (n <=? 32)%nat)
  || (n =? 133)%nat || (n =? 160)%nat.

Fixpoint lstrip (s : string) : string :=
  match s with
  | EmptyString => EmptyString
  | String c s' => if is_space c then lstrip s' else s
  end.

Fixpoint rstrip (s : string) : string :=
  match s with
  | EmptyString => EmptyString
  | String c s' =>
      let r := rstrip s' in
      if String.eqb r "" && is_space c then EmptyString else String c r
  end.

(** [s.strip()] *)
Definition strip (s : string) : string := lstrip (rstrip s).

Definition is_newline (c : ascii) : bool :=
  Ascii.eqb c "010" || Ascii.eqb c "013".

(** [for line in f]: the lines of a text file opened for reading, each
    with its line end, which is one of LF, CR, CR LF and is read as LF. *)
Fixpoint readlines (text : string) : list string :=
  match text with
  | EmptyString => []
  | String c text' =>
      if Ascii.eqb c "010" then String "010" "" :: readlines text'
      else if Ascii.eqb c "013" then
        match text' with
        | String d text'' =>
            if Ascii.eqb d "010" then String "010" "" :: readlines text''
            else String "010" "" :: readlines text'
        | EmptyString => [String "010" ""]
        end
      else
        match readlines text' with
        | l :: ls => String c l :: ls
        | [] => [String c ""]
        end
  end.

(** What follows the first [sep]: the second element of
    [s.split(sep, 1)] when [sep] occurs in [s]. *)
Fixpoint after_sep (sep : ascii) (s : string) : string :=
  match s with
  | EmptyString => EmptyString
  | String c s' => if Ascii.eqb c sep then s' else after_sep sep s'
  end.

(** The body of the loop over the lines of the file. *)
Definition read_env_line (env_vars : Dict) (line : string) : Dict :=
  let line := strip line in
  if negb (String.eqb line "") && negb (startswith line "#") && contains "=" line
  then dict_set env_vars (split_head "=" line) (PStr (after_sep "=" line))
  else env_vars.

(** [env_vars] after the block that reads the file, when it exists. *)
Definition load_env (file : option string) : Dict :=
  match file with
  | Some text => fold_left read_env_line (readlines text) []
  | None => []
  end.

(** The text written back: [f"{key}={value}\n"] for every item. *)
Fixpoint write_env (env_vars : Dict) : string :=
  match env_vars with
  | [] => ""
  | (key, value) :: rest =>
      key ++ "=" ++ py_str value ++ String "010" "" ++ write_env rest
  end.

(** cleartunnel.save_tunnel_url, as a function on the file. *)
Definition save_tunnel_url (url : option string) (file : option string) : option string :=
  match truthy url with
  | None => file
  | Some u =>
      let env_vars := load_env file in
      let env_vars := dict_set env_vars "CLEARTUNNEL_URL" (PStr u) in
      Some (write_env env_vars)
  end.

(** auth.save_host_to_env *)
Definition save_host_to_env (host_url : option string) (file : option string)
    : option string :=
  match truthy host_url with
  | None => file
  | Some h =>
      let env_vars := load_env file in
      match dict_get env_vars "DATABRICKS_HOST" with
      | None => Some (write_env (dict_set env_vars "DATABRICKS_HOST" (PStr h)))
      | Some _ => file
      end
  end.

(** auth.save_token_to_env *)
Definition save_token_to_env (token : option string) (file : option string)
    : option string :=
  match truthy token with
  | None => file
  | Some t =>
      let env_vars := load_env file in
      match dict_get env_vars "DATABRICKS_TOKEN" with
      | None => Some (write_env (dict_set env_vars "DATABRICKS_TOKEN" (PStr t)))
      | Some _ => file
      end
  end.

(** An entry that reads back as it was written: its line [key=value] is
    stripped already, has no line end inside, is not a comment, and the
    key has no [=]. *)
Definition line_of (kv : string * PyVal) : string :=
  fst kv ++ "=" ++ py_str (snd kv).

Fixpoint string_forallb (p : ascii -> bool) (s : string) : bool :=
  match s with
  | EmptyString => true
  | String c s' => p c && string_forallb p s'
  end.

(** No line end in [s]. *)
Definition no_newline (s : string) : bool :=
  string_forallb (fun c => negb (is_newline c)) s.

Definition clean_entry (kv : string * PyVal) : bool :=
  match snd kv with
  | PStr _ =>
      String.eqb (strip (line_of kv)) (line_of kv)
      && no_newline (line_of kv)
      && negb (startswith (line_of kv) "#")
      && negb (contains "=" (fst kv))
  | PObj _ => false
  end.

(** *** verify_pat *)

(** [s.split(sep)] for a one-character separator. *)
Fixpoint split (sep : ascii) (s : string) : list string :=
  match s with
  | EmptyString => [EmptyString]
  | String c s' =>
      if Ascii.eqb c sep then EmptyString :: split sep s'
      else
        match split sep s' with
        | x :: xs => String c x :: xs
        | [] => [String c EmptyString]
        end
  end.

(** What [WorkspaceClient(host, token).current_user.me()] does. *)
Inductive Identity : Type :=
| Me (user_name : string)
| PermissionDenied
| OtherError (msg : string).

(** How [verify_pat] ends: with [{"token": ..., "user": ...}], with an
    [HTTPException], or with the [IndexError] of [auth.split(" ")[1]]. *)
Inductive Verdict : Type :=
| Verified (token user : string)
| Rejected (status_code : Z) (detail : string)
| IndexError.

(** The [try] block around the identity service. *)
Definition check_token (identity : string -> Identity) (token : string) : Verdict :=
  match identity token with
  | Me user_name => Verified token user_name
  | PermissionDenied => Rejected 403 "Permission denied"
  | OtherError msg => Rejected 400 msg
  end.

(** auth.verify_pat, on the environment token, the [Authorization]
    header, the identity service and the file. *)
Definition verify_pat (env_token authorization : option string)
    (identity : string -> Identity) (file : option string)
    : Verdict * option string :=
  let bearer := match truthy authorization with
                | Some auth => if startswith auth "Bearer dapi" then Some auth else None
                | None => None
                end in
  match bearer with
  | Some auth =>
      match nth_error (split " " auth) 1 with
      | Some token =>
          let file' := match truthy env_token with
                       | None => save_token_to_env (Some token) file
                       | Some _ => file
                       end in
          (check_token identity token, file')
      | None => (IndexError, file)
      end
  | None =>
      match truthy env_token with
      | Some token => (check_token identity token, file)
      | None => (Rejected 401 "Missing or invalid PAT", file)
      end
  end.

(** ** The program *)

Section Program.

Variable W : Type.
Variable db : Connector W.
Variable pd : Pandas.
Variable env : Environ.

(** The module-level [spark] session together with the outside world. *)
Record State : Type := mkState {
  connection : option Conn;
  cursor : option Cursor;
  world : W;
  trace : list Event
}.

Definition M (A : Type) : Type := State -> Outcome A * State.

Definition ret {A} (a : A) : M A := fun s => (Ok a, s).

Definition bind {A B} (m : M A) (f : A -> M B) : M B :=
  fun s =>
    match m s with
    | (Ok a, s') => f a s'
    | (Raise e, s') => (Raise e, s')
    | (OutOfFuel, s') => (OutOfFuel, s')
    end.

Definition raise {A} (e : Exn) : M A := fun s => (Raise e, s).

(** [try: m  except Exception: h] *)
Definition try_except {A} (m : M A) (h : Exn -> M A) : M A :=
  fun s =>
    match m s with
    | (Raise e, s') => h e s'
    | r => r
    end.

Notation "x <- m ;; k" := (bind m (fun x => k))
  (at level 61, m at next level, right associativity).
Notation "m ;;; k" := (bind m (fun _ => k))
  (at level 61, right associativity).

(** An external call: run it on the world and record it. *)
Definition call {A} (ev : Event) (op : W -> Reply A * W) : M A :=
  fun s =>
    let (r, w') := op (world s) in
    let s' := mkState (connection s) (cursor s) w' (trace s ++ [ev]) in
    match r with
    | Returns a => (Ok a, s')
    | Throws e => (Raise e, s')
    end.

(** Reading an attribute of an external object. *)
Definition read {A} (op : W -> Reply A) : M A :=
  fun s =>
    match op (world s) with
    | Returns a => (Ok a, s)
    | Throws e => (Raise e, s)
    end.

Definition lift_reply {A} (r : Reply A) : M A :=
  match r with
  | Returns a => ret a
  | Throws e => raise e
  end.

Definition get_connection_field : M (option Conn) := fun s => (Ok (connection s), s).
Definition get_cursor_field : M (option Cursor) := fun s => (Ok (cursor s), s).
Definition set_connection (c : option Conn) : M unit :=
  fun s => (Ok tt, mkState c (cursor s) (world s) (trace s)).
Definition set_cursor (k : option Cursor) : M unit :=
  fun s => (Ok tt, mkState (connection s) k (world s) (trace s)).

(** [time.sleep(seconds)] *)
Definition time_sleep (seconds : Z) : M unit :=
  fun s => (Ok tt, mkState (connection s) (cursor s) (world s) (trace s ++ [ESleep seconds])).

(** *** get_connection *)

(** [hostname = DATABRICKS_HOST.replace("https://", "")] *)
Definition hostname_of_host : M string :=
  match DATABRICKS_HOST env with
  | Some h => ret (str_replace "https://" "" h)
  | None => raise (AttributeError "'NoneType' object has no attribute 'replace'")
  end.

(** [hostname.split('.')[0].replace('adb-', '')] *)
Definition workspace_id_of (hostname : string) : string :=
  str_replace "adb-" "" (split_head "."%char hostname).

Definition warehouse_path : string :=
  "/sql/1.0/warehouses/" ++ getenv_default env "DATABRICKS_WAREHOUSE_ID" "0".
Definition protocol_path (workspace_id : string) : string :=
  "/sql/protocolv1/o/" ++ workspace_id ++ "/" ++ getenv_default env "DATABRICKS_CLUSTER_ID" "0".
Definition endpoint_path : string :=
  "/sql/1.0/endpoints/" ++ getenv_default env "DATABRICKS_ENDPOINT_ID" "0".

(** [sql.connect(server_hostname=..., http_path=..., access_token=DATABRICKS_TOKEN)] *)
Definition connect (hostname http_path : string) : M Conn :=
  call (EConnect hostname http_path (DATABRICKS_TOKEN env))
       (sql_connect db hostname http_path (DATABRICKS_TOKEN env)).

(** The bodies of the three nested [try] blocks. *)
Definition try_warehouse : M Conn :=
  hostname <- hostname_of_host ;;
  let workspace_id := workspace_id_of hostname in   (* computed, not used *)
  connect hostname warehouse_path.

Definition try_protocol : M Conn :=
  hostname <- hostname_of_host ;;
  let workspace_id := workspace_id_of hostname in
  connect hostname (protocol_path workspace_id).

Definition try_endpoint : M Conn :=
  hostname <- hostname_of_host ;;
  connect hostname endpoint_path.

Definition get_connection : M (option Conn) :=
  try_except (c <- try_warehouse ;; ret (Some c))
    (fun e =>
       try_except (c <- try_protocol ;; ret (Some c))
         (fun e2 =>
            try_except (c <- try_endpoint ;; ret (Some c))
              (fun e3 => ret None))).

(** *** SparkSession *)

(** [SparkSession.__init__] *)
Definition init_State (w : W) : State := mkState None None w [].

Definition _ensure_connection : M unit :=
  c <- get_connection_field ;;
  match c with
  | None =>
      c' <- get_connection ;;
      set_connection c' ;;;
      match c' with
      | Some conn => k <- call (ECursor conn) (connection_cursor db conn) ;; set_cursor (Some k)
      | None => ret tt
      end
  | Some _ => ret tt
  end.

(** The [try] block of one loop iteration of [sql]. *)
Definition attempt (query : string) : M DataFrame :=
  _ensure_connection ;;;
  c <- get_connection_field ;;
  k <- get_cursor_field ;;
  match c, k with
  | Some _, Some cur =>
      call (EExecute cur query) (cursor_execute db cur query) ;;;
      description <- read (cursor_description db cur) ;;
      let columns := match description with
                     | Some (d :: ds) => d :: ds
                     | _ => []
                     end in
      data <- call (EFetchall cur) (cursor_fetchall db cur) ;;
      lift_reply (pd_DataFrame pd data columns)
  | _, _ => raise (Exception "Failed to establish connection")
  end.

(** [try: ... except: pass]; the bare [except] swallows everything. *)
Definition swallow (m : M unit) : M unit := try_except m (fun _ => ret tt).

Definition _close_connection : M unit :=
  swallow (k <- get_cursor_field ;;
           match k with
           | Some cur => call (ECursorClose cur) (cursor_close db cur)
           | None => ret tt
           end) ;;;
  swallow (c <- get_connection_field ;;
           match c with
           | Some conn => call (EConnectionClose conn) (connection_close db conn)
           | None => ret tt
           end) ;;;
  set_connection None ;;;
  set_cursor None.

Definition close : M unit := _close_connection.

(** How one iteration of the [while] loop ends. *)
Inductive Step : Type :=
| Return (r : PyResult)
| Continue (retries : Z).

(** The body of [while retries < max_retries]. *)
Definition sql_iteration (query : string) (max_retries retries : Z) : M Step :=
  try_except
    (df <- attempt query ;; ret (Return (RetDF df)))
    (fun e =>
       let retries := retries + 1 in
       _close_connection ;;;
       if retries <? max_retries
       then (let wait_time := 2 ^ retries in
             time_sleep wait_time ;;; ret (Continue retries))
       else ret (Return (RetDF empty_DataFrame))).

Fixpoint sql_loop (fuel : nat) (query : string) (max_retries retries : Z) : M PyResult :=
  if retries <? max_retries then
    match fuel with
    | O => fun s => (OutOfFuel, s)
    | S fuel' =>
        st <- sql_iteration query max_retries retries ;;
        match st with
        | Return r => ret r
        | Continue retries' => sql_loop fuel' query max_retries retries'
        end
    end
  else ret RetNone.

(** [SparkSession.sql(query, max_retries)]: at most [max_retries]
    iterations are ever needed. *)
Definition sql (query : string) (max_retries : Z) : M PyResult :=
  sql_loop (Z.to_nat max_retries) query max_retries 0.

(** *** Reading a DataFrame *)

Fixpoint positions_from (i : nat) (col : string) (cols : list string) : list nat :=
  match cols with
  | [] => []
  | c :: cols' =>
      if String.eqb c col
      then i :: positions_from (S i) col cols'
      else positions_from (S i) col cols'
  end.

(** [col in df.columns] *)
Definition has_column (df : DataFrame) (col : string) : bool :=
  str_in col (columns df).

(** [row[col]] for a row of [df.iterrows()]: the cell under the label, a
    Series when the label is repeated, [KeyError] when it is absent. *)
Definition row_getitem (df : DataFrame) (row : list PyVal) (col : string) : Reply PyVal :=
  match positions_from 0 col (columns df) with
  | [] => Throws (KeyError col)
  | [i] => Returns (nth i row PNone)
  | ps => Returns (PObj (Series_str pd (map (fun i => nth i row PNone) ps)))
  end.

(** A list comprehension whose element expression may raise. *)
Fixpoint comprehension {A B} (f : A -> Reply B) (l : list A) : Reply (list B) :=
  match l with
  | [] => Returns []
  | a :: l' =>
      match f a with
      | Throws e => Throws e
      | Returns b =>
          match comprehension f l' with
          | Throws e => Throws e
          | Returns bs => Returns (b :: bs)
          end
      end
  end.

(** [[row[col] for _, row in df.iterrows()]] *)
Definition column_values (df : DataFrame) (col : string) : Reply (list PyVal) :=
  comprehension (fun row => row_getitem df row col) (rows df).

(** [df.to_dict(orient="records")]: one dict per row; under a repeated
    label the later cell replaces the earlier one. *)
Definition to_dict_record (cols : list string) (row : list PyVal) : Dict :=
  fold_left (fun d kv => dict_set d (fst kv) (snd kv)) (combine cols row) [].

Definition to_dict_records (df : DataFrame) : list Dict :=
  map (to_dict_record (columns df)) (rows df).

(** Using the value [sql] returned as a DataFrame ([df.columns],
    [df.iterrows()], [df.empty]). *)
Definition the_df (r : PyResult) : M DataFrame :=
  match r with
  | RetDF df => ret df
  | RetNone => raise (AttributeError "'NoneType' object has no such attribute")
  end.

(** [spark.sql(query)] with the default [max_retries=3]. *)
Definition spark_sql (query : string) : M PyResult := sql query 3.

(** *** Catalog enumerator *)

Definition list_catalogs_body : M (list PyVal) :=
  r <- spark_sql "SHOW CATALOGS" ;;
  df <- the_df r ;;
  lift_reply (column_values df "catalog").

Definition list_catalogs : M (list PyVal) :=
  try_except list_catalogs_body (fun e => ret []).

Definition list_schemas_body (catalog : PyVal) : M (list PyVal) :=
  r <- spark_sql ("SHOW SCHEMAS IN " ++ py_str catalog) ;;
  df <- the_df r ;;
  if has_column df "namespace" then lift_reply (column_values df "namespace")
  else if has_column df "schema" then lift_reply (column_values df "schema")
  else if has_column df "databaseName" then lift_reply (column_values df "databaseName")
  else ret [].

Definition list_schemas (catalog : PyVal) : M (list PyVal) :=
  try_except (list_schemas_body catalog) (fun e => ret []).

(** The dict built for one row of [SHOW TABLES]. *)
Definition table_descriptor (catalog schema name : PyVal) : Dict :=
  [ ("name", name);
    ("full_name", PStr (py_str catalog ++ "." ++ py_str schema ++ "." ++ py_str name));
    ("catalog", catalog);
    ("schema", schema) ].

Definition list_tables_in_schema_body (catalog schema : PyVal) : M (list Dict) :=
  r <- spark_sql ("SHOW TABLES IN " ++ py_str catalog ++ "." ++ py_str schema) ;;
  df <- the_df r ;;
  let tables_of (table_name_col : string) : M (list Dict) :=
    lift_reply
      (comprehension
         (fun row =>
            match row_getitem df row table_name_col with
            | Returns v => Returns (table_descriptor catalog schema v)
            | Throws e => Throws e
            end)
         (rows df)) in
  if has_column df "tableName" then tables_of "tableName"
  else if has_column df "name" then tables_of "name"
  else ret [].

Definition list_tables_in_schema (catalog schema : PyVal) : M (list Dict) :=
  try_except (list_tables_in_schema_body catalog schema) (fun e => ret []).

(** [x.startswith('sys') or x in ['information_schema', 'system']] *)
Definition system_name (x : string) : bool :=
  startswith x "sys" || str_in x ["information_schema"; "system"].

(** [exclude_system and (x.startswith('sys') or x in [...])]; calling
    [startswith] on something that is not a [str] raises. *)
Definition skip_system (exclude_system : bool) (x : PyVal) : M bool :=
  if exclude_system then
    match x with
    | PStr s => ret (system_name s)
    | PObj _ => raise (AttributeError "object has no attribute 'startswith'")
    end
  else ret false.

(** [for schema in schemas: ...], with [all_tables] threaded through. *)
Fixpoint for_schemas (exclude_system : bool) (catalog : PyVal)
    (schemas : list PyVal) (all_tables : list Dict) : M (list Dict) :=
  match schemas with
  | [] => ret all_tables
  | schema :: schemas' =>
      skip <- skip_system exclude_system schema ;;
      if skip then for_schemas exclude_system catalog schemas' all_tables
      else
        (tables <- list_tables_in_schema catalog schema ;;
         for_schemas exclude_system catalog schemas' (all_tables ++ tables))
  end.

(** [for catalog in catalogs: ...] *)
Fixpoint for_catalogs (exclude_system : bool) (catalogs : list PyVal)
    (all_tables : list Dict) : M (list Dict) :=
  match catalogs with
  | [] => ret all_tables
  | catalog :: catalogs' =>
      skip <- skip_system exclude_system catalog ;;
      if skip then for_catalogs exclude_system catalogs' all_tables
      else
        (schemas <- list_schemas catalog ;;
         all_tables' <- for_schemas exclude_system catalog schemas all_tables ;;
         for_catalogs exclude_system catalogs' all_tables')
  end.

Definition _list_all_tables_recursive (exclude_system : bool) : M (list Dict) :=
  try_except
    (catalogs <- list_catalogs ;;
     for_catalogs exclude_system catalogs [])
    (fun e => ret []).

Definition list_all_tables_body : M (list Dict) :=
  r <- spark_sql metadata_query ;;
  df <- the_df r ;;
  if df_empty df then _list_all_tables_recursive true
  else ret (to_dict_records df).

Definition list_all_tables : M (list Dict) :=
  try_except list_all_tables_body (fun e => _list_all_tables_recursive true).

(** *** Table data and the endpoints of main.py *)

Definition get_table_df (full_table_name : string) : M PyResult :=
  try_except
    (let query := "SELECT * FROM " ++ full_table_name ++ " LIMIT 100" in
     spark_sql query)
    (fun e => ret (RetDF empty_DataFrame)).

(** [GET /tables/{full_table_name}] *)
Definition get_rows (full_table_name : string) (limit : Z) : M (HttpReply (list Dict)) :=
  r <- get_table_df full_table_name ;;
  df <- the_df r ;;
  if df_empty df then ret (HTTPException 404 "Table not found or empty")
  else ret (Answer (to_dict_records (df_head df limit))).

(** [PUT /tables/{full_table_name}] *)
Definition update_rows (full_table_name : string) (filter updates : Dict)
    : M (HttpReply Body) :=
  try_except
    (let filter_expr := dict_to_sql_filter filter in
     let updates' := str_join ", " (map assignment updates) in
     let query := "UPDATE " ++ full_table_name ++ " SET " ++ updates'
                  ++ " WHERE " ++ filter_expr in
     spark_sql query ;;;
     ret (Answer (StatusWhere "updated" filter)))
    (fun e => ret (HTTPException 500 (exn_str e))).

(** [DELETE /tables/{full_table_name}] *)
Definition delete_rows (full_table_name : string) (filter : Dict) : M (HttpReply Body) :=
  try_except
    (let filter_expr := dict_to_sql_filter filter in
     let query := "DELETE FROM " ++ full_table_name ++ " WHERE " ++ filter_expr in
     spark_sql query ;;;
     ret (Answer (StatusWhere "deleted" filter)))
    (fun e => ret (HTTPException 500 (exn_str e))).

(** [POST /tables/create] *)
Definition create_table (payload : CreateTablePayload) : M (HttpReply Body) :=
  try_except
    (let query := create_table_query payload in
     spark_sql query ;;;
     ret (Answer (StatusTable "created" (payload_table_name payload))))
    (fun e => ret (HTTPException 500 (exn_str e))).

(** [DELETE /tables/drop/{full_table_name}] *)
Definition drop_table (full_table_name : string) : M (HttpReply Body) :=
  try_except
    (let query := "DROP TABLE " ++ full_table_name in
     spark_sql query ;;;
     ret (Answer (StatusTable "dropped" full_table_name)))
    (fun e => ret (HTTPException 500 (exn_str e))).

(** *** Vocabulary for the statements *)

Definition raises {A} (o : Outcome A) : bool :=
  match o with
  | Raise _ => true
  | _ => false
  end.

(** The next [n] attempts of [sql] all fail: each [try] block raises in
    the state the previous iteration left. *)
Fixpoint attempts_fail (n : nat) (query : string) (max_retries retries : Z)
    (s : State) : bool :=
  match n with
  | O => true
  | S n' =>
      raises (fst (attempt query s))
      && attempts_fail n' query max_retries (retries + 1)
           (snd (sql_iteration query max_retries retries s))
  end.

(** The state after [n] iterations of the loop. *)
Fixpoint after_iterations (n : nat) (query : string) (max_retries retries : Z)
    (s : State) : State :=
  match n with
  | O => s
  | S n' =>
      after_iterations n' query max_retries (retries + 1)
        (snd (sql_iteration query max_retries retries s))
  end.

(** The first of the candidate labels that is a column of [df]. *)
Definition first_present (df : DataFrame) (candidates : list string) : option string :=
  find (has_column df) candidates.

(** The value of [row[col]] when [col] is a column of [df]. *)
Definition cell (df : DataFrame) (col : string) (row : list PyVal) : PyVal :=
  match positions_from 0 col (columns df) with
  | [i] => nth i row PNone
  | ps => PObj (Series_str pd (map (fun i => nth i row PNone) ps))
  end.



(** The calls of a computation stay within a budget: at most [c]
    connects and [x] executes, every execute submitting [query], and at
    most [z] seconds of sleep in total. *)
Definition within (query : string) (c x : nat) (z : Z) {A} (m : M A) : Prop :=
  forall s,
    exists d,
      trace (snd (m s)) = (trace s ++ d)%list /\
      (List.length (connects_of d) <= c)%nat /\
      (List.length (executes_of d) <= x)%nat /\
      Forall (eq query) (executes_of d) /\
      Zsum (sleeps_of d) <= z.

(** The schema of a descriptor is a string that the system-name test
    lets through. *)
Definition schema_ok (d : Dict) : Prop :=
  exists sc,
    dict_get d "schema" = Some (PStr sc) /\ system_name sc = false.

(** A computation that never runs out of fuel and never sleeps. *)
Definition tame {A} (m : M A) : Prop :=
  forall s,
    fst (m s) <> OutOfFuel /\
    exists d, trace (snd (m s)) = (trace s ++ d)%list /\ sleeps_of d = [].

(** ** Properties *)

(** *** Tame computations *)

Lemma sleeps_of_app (a b : list Event) :
  sleeps_of (a ++ b)%list = (sleeps_of a ++ sleeps_of b)%list.
Proof. unfold sleeps_of. apply flat_map_app. Qed.

Lemma tame_ret {A} (a : A) : tame (ret a).
Proof.
  intro s; split; [discriminate|].
  exists []; simpl; rewrite app_nil_r; auto.
Qed.

Lemma tame_raise {A} (e : Exn) : tame (@raise A e).
Proof.
  intro s; split; [discriminate|].
  exists []; simpl; rewrite app_nil_r; auto.
Qed.

Lemma tame_bind {A B} (m : M A) (f : A -> M B) :
  tame m -> (forall a, tame (f a)) -> tame (bind m f).
Proof.
  intros Hm Hf s. unfold bind.
  destruct (Hm s) as [Hfuel [d [Hd Hs]]].
  destruct (m s) as [[a|e|] s1]; simpl in *.
  - destruct (Hf a s1) as [Hfuel' [d' [Hd' Hs']]].
    split; [assumption|].
    exists (d ++ d')%list. rewrite Hd', Hd, app_assoc, sleeps_of_app, Hs, Hs'. auto.
  - split; [discriminate|]. exists d; auto.
  - contradiction.
Qed.

Lemma tame_try_except {A} (m : M A) (h : Exn -> M A) :
  tame m -> (forall e, tame (h e)) -> tame (try_except m h).
Proof.
  intros Hm Hh s. unfold try_except.
  destruct (Hm s) as [Hfuel [d [Hd Hs]]].
  destruct (m s) as [[a|e|] s1]; simpl in *.
  - split; [discriminate|]. exists d; auto.
  - destruct (Hh e s1) as [Hfuel' [d' [Hd' Hs']]].
    split; [assumption|].
    exists (d ++ d')%list. rewrite Hd', Hd, app_assoc, sleeps_of_app, Hs, Hs'. auto.
  - contradiction.
Qed.

Lemma tame_call {A} (ev : Event) (op : W -> Reply A * W) :
  sleeps_of [ev] = [] -> tame (call ev op).
Proof.
  intros Hev s. unfold call.
  destruct (op (world s)) as [[a|e] w']; simpl;
    (split; [discriminate|]); exists [ev]; auto.
Qed.

Lemma tame_read {A} (op : W -> Reply A) : tame (read op).
Proof.
  intro s. unfold read.
  destruct (op (world s)) as [a|e]; simpl;
    (split; [discriminate|]); exists []; rewrite app_nil_r; auto.
Qed.

Lemma tame_lift_reply {A} (r : Reply A) : tame (lift_reply r).
Proof. destruct r; [apply tame_ret | apply tame_raise]. Qed.

Lemma tame_get_connection_field : tame get_connection_field.
Proof. intro s; split; [discriminate|]; exists []; simpl; rewrite app_nil_r; auto. Qed.

Lemma tame_get_cursor_field : tame get_cursor_field.
Proof. intro s; split; [discriminate|]; exists []; simpl; rewrite app_nil_r; auto. Qed.

Lemma tame_set_connection (c : option Conn) : tame (set_connection c).
Proof. intro s; split; [discriminate|]; exists []; simpl; rewrite app_nil_r; auto. Qed.

Lemma tame_set_cursor (k : option Cursor) : tame (set_cursor k).
Proof. intro s; split; [discriminate|]; exists []; simpl; rewrite app_nil_r; auto. Qed.

(** Breaks a goal [tame m] down along the structure of [m]. *)
Ltac tame_step :=
  first
    [ apply tame_ret
    | apply tame_raise
    | apply tame_get_connection_field
    | apply tame_get_cursor_field
    | apply tame_set_connection
    | apply tame_set_cursor
    | apply tame_read
    | apply tame_lift_reply
    | apply tame_call; reflexivity
    | apply tame_bind; [|intro]
    | apply tame_try_except; [|intro]
    | match goal with
      | |- tame (match ?x with _ => _ end) => destruct x
      end ].

Ltac tame_auto := repeat tame_step.

Lemma tame_hostname_of_host : tame hostname_of_host.
Proof. unfold hostname_of_host. tame_auto. Qed.

Lemma tame_connect (hostname http_path : string) : tame (connect hostname http_path).
Proof. unfold connect. tame_auto. Qed.

Lemma tame_get_connection : tame get_connection.
Proof.
  unfold get_connection, try_warehouse, try_protocol, try_endpoint.
  repeat first [ apply tame_hostname_of_host | apply tame_connect | tame_step ].
Qed.

Lemma tame__ensure_connection : tame _ensure_connection.
Proof.
  unfold _ensure_connection.
  repeat first [ apply tame_get_connection | tame_step ].
Qed.

Lemma tame_attempt (query : string) : tame (attempt query).
Proof.
  unfold attempt.
  repeat first [ apply tame__ensure_connection | tame_step ].
Qed.

Lemma tame__close_connection : tame _close_connection.
Proof. unfold _close_connection, swallow. tame_auto. Qed.

(** *** The session *)

Lemma state_eta (s : State) :
  mkState (connection s) (cursor s) (world s) (trace s) = s.
Proof. destruct s; reflexivity. Qed.

(** [_close_connection] always returns, and leaves both fields empty. *)
Lemma _close_connection_returns (s : State) :
  exists s', _close_connection s = (Ok tt, s') /\
             connection s' = None /\ cursor s' = None.
Proof.
  unfold _close_connection, swallow, try_except, bind, call,
    get_cursor_field, get_connection_field, set_connection, set_cursor, ret.
  destruct s as [c k w tr]; simpl.
  destruct k as [cur|]; simpl.
  - destruct (cursor_close db cur w) as [[[]|e] w1]; simpl;
      destruct c as [conn|]; simpl;
      try (destruct (connection_close db conn w1) as [[[]|e'] w2]; simpl);
      eexists; repeat split; reflexivity.
  - destruct c as [conn|]; simpl;
      try (destruct (connection_close db conn w) as [[[]|e'] w2]; simpl);
      eexists; repeat split; reflexivity.
Qed.

(** With nothing to close it does nothing at all. *)
Lemma _close_connection_disconnected (s : State) :
  connection s = None -> cursor s = None -> _close_connection s = (Ok tt, s).
Proof.
  destruct s as [c k w tr]; simpl; intros -> ->. reflexivity.
Qed.

Lemma attempt_has_fuel (query : string) (s : State) :
  fst (attempt query s) <> OutOfFuel.
Proof. apply (tame_attempt query s). Qed.

(** The two ways an iteration can go. *)
Lemma sql_iteration_success (query : string) (max_retries retries : Z)
    (s s' : State) (df : DataFrame) :
  attempt query s = (Ok df, s') ->
  sql_iteration query max_retries retries s = (Ok (Return (RetDF df)), s').
Proof.
  intro H. unfold sql_iteration, try_except, bind. rewrite H. reflexivity.
Qed.

Lemma sql_iteration_failure (query : string) (max_retries retries : Z) (s : State) :
  raises (fst (attempt query s)) = true ->
  exists s1,
    _close_connection (snd (attempt query s)) = (Ok tt, s1) /\
    connection s1 = None /\ cursor s1 = None /\
    sql_iteration query max_retries retries s =
      if retries + 1 <? max_retries
      then (Ok (Continue (retries + 1)),
            mkState None None (world s1)
                    (trace s1 ++ [ESleep (2 ^ (retries + 1))]))
      else (Ok (Return (RetDF empty_DataFrame)), s1).
Proof.
  intro H. unfold sql_iteration, try_except, bind.
  destruct (attempt query s) as [[df|e|] s0]; simpl in H; try discriminate.
  simpl. destruct (_close_connection_returns s0) as [s1 [Hc [Hn Hk]]].
  exists s1. rewrite Hc. repeat split; auto.
  destruct (retries + 1 <? max_retries); simpl; [|reflexivity].
  unfold time_sleep, ret. rewrite Hn, Hk. reflexivity.
Qed.

(** An iteration always produces a step: a [return] of a DataFrame, or
    a [Continue] that counts one more failure. *)
Lemma sql_iteration_step (query : string) (max_retries retries : Z) (s : State) :
  exists st, fst (sql_iteration query max_retries retries s) = Ok st /\
             (forall r', st = Continue r' ->
                         r' = retries + 1 /\ retries + 1 < max_retries) /\
             (forall r, st = Return r -> exists df, r = RetDF df).
Proof.
  destruct (attempt query s) as [[df|e|] s0] eqn:E.
  - rewrite (sql_iteration_success _ max_retries retries _ _ _ E).
    eexists; split; [reflexivity|]. split; [discriminate|].
    intros r Hr; inversion Hr. eauto.
  - destruct (sql_iteration_failure query max_retries retries s) as [s1 [_ [_ [_ H]]]].
    { rewrite E; reflexivity. }
    rewrite H. destruct (retries + 1 <? max_retries) eqn:L; simpl.
    + eexists; split; [reflexivity|]. split; [|discriminate].
      intros r' Hr; inversion Hr. split; [reflexivity|lia].
    + eexists; split; [reflexivity|]. split; [discriminate|].
      intros r Hr; inversion Hr. eauto.
  - exfalso. apply (attempt_has_fuel query s). rewrite E. reflexivity.
Qed.

(** Once the loop is entered it returns a DataFrame, not [None]. *)
Lemma sql_loop_returns_DataFrame (fuel : nat) (query : string)
    (max_retries retries : Z) (s : State) :
  (Z.to_nat (max_retries - retries) <= fuel)%nat ->
  retries < max_retries ->
  exists df, fst (sql_loop fuel query max_retries retries s) = Ok (RetDF df).
Proof.
  revert retries s. induction fuel as [|fuel IH]; intros retries s Hf Hlt; [lia|].
  simpl. replace (retries <? max_retries) with true by (symmetry; apply Z.ltb_lt; lia).
  unfold bind.
  destruct (sql_iteration_step query max_retries retries s) as [st [Hst [Hc Hr]]].
  destruct (sql_iteration query max_retries retries s) as [o s1]; simpl in Hst; subst o.
  destruct st as [r|r'].
  - destruct (Hr r eq_refl) as [df ->]. exists df. reflexivity.
  - destruct (Hc r' eq_refl) as [-> Hlt']. apply IH; lia.
Qed.

(** The fuel [sql] passes to its loop is enough: the loop always ends
    with a Python result. *)
Lemma sql_loop_total (fuel : nat) (query : string) (max_retries retries : Z) (s : State) :
  (Z.to_nat (max_retries - retries) <= fuel)%nat ->
  exists r, fst (sql_loop fuel query max_retries retries s) = Ok r.
Proof.
  revert retries s. induction fuel as [|fuel IH]; intros retries s Hf; simpl.
  - destruct (retries <? max_retries) eqn:L; [lia|]. eexists; reflexivity.
  - destruct (retries <? max_retries) eqn:L; [|eexists; reflexivity].
    unfold bind.
    destruct (sql_iteration_step query max_retries retries s) as [st [Hst [Hc _]]].
    destruct (sql_iteration query max_retries retries s) as [o s1]; simpl in Hst; subst o.
    destruct st as [r|r'].
    + eexists; reflexivity.
    + destruct (Hc r' eq_refl) as [-> Hlt]. apply IH. lia.
Qed.

Lemma sql_total (query : string) (max_retries : Z) (s : State) :
  exists r, fst (sql query max_retries s) = Ok r.
Proof. unfold sql. apply sql_loop_total. lia. Qed.

(** All remaining attempts fail: the loop gives up with an empty
    DataFrame, in the state the last iteration left. *)
Lemma sql_loop_exhausted (k : nat) :
  forall (fuel : nat) (query : string) (max_retries retries : Z) (s : State),
    (0 < k)%nat -> Z.of_nat k = max_retries - retries -> (k <= fuel)%nat ->
    attempts_fail k query max_retries retries s = true ->
    sql_loop fuel query max_retries retries s =
      (Ok (RetDF empty_DataFrame), after_iterations k query max_retries retries s).
Proof.
  induction k as [|k IH]; intros fuel query max_retries retries s Hk Hn Hf Hfail; [lia|].
  destruct fuel as [|fuel]; [lia|].
  simpl in Hfail. apply andb_prop in Hfail as [Hr Hrest].
  simpl. replace (retries <? max_retries) with true by (symmetry; apply Z.ltb_lt; lia).
  unfold bind.
  destruct (sql_iteration_failure query max_retries retries s Hr) as [s1 [_ [_ [_ Hit]]]].
  destruct k as [|k].
  - replace (retries + 1 <? max_retries) with false in Hit
      by (symmetry; apply Z.ltb_ge; lia).
    rewrite Hit. reflexivity.
  - replace (retries + 1 <? max_retries) with true in Hit
      by (symmetry; apply Z.ltb_lt; lia).
    rewrite Hit in *. simpl snd in *.
    apply IH; try lia. exact Hrest.
Qed.

(** [k] failures, fewer than [max_retries], then a success: the loop
    returns what the successful attempt built. *)
Lemma sql_loop_recovers (k : nat) :
  forall (fuel : nat) (query : string) (max_retries retries : Z) (s s' : State)
         (df : DataFrame),
    Z.of_nat k < max_retries - retries -> (k < fuel)%nat ->
    attempts_fail k query max_retries retries s = true ->
    attempt query (after_iterations k query max_retries retries s) = (Ok df, s') ->
    sql_loop fuel query max_retries retries s = (Ok (RetDF df), s').
Proof.
  induction k as [|k IH]; intros fuel query max_retries retries s s' df Hn Hf Hfail Hok;
    (destruct fuel as [|fuel]; [lia|]);
    simpl; replace (retries <? max_retries) with true by (symmetry; apply Z.ltb_lt; lia);
    unfold bind.
  - simpl in Hok. rewrite (sql_iteration_success _ _ _ _ _ _ Hok). reflexivity.
  - simpl in Hfail. apply andb_prop in Hfail as [Hr Hrest].
    destruct (sql_iteration_failure query max_retries retries s Hr) as [s1 [_ [_ [_ Hit]]]].
    replace (retries + 1 <? max_retries) with true in Hit
      by (symmetry; apply Z.ltb_lt; lia).
    simpl in Hok. rewrite Hit in *. simpl snd in *.
    apply (IH fuel query max_retries (retries + 1) _ s' df); try lia; assumption.
Qed.

(** The sleeps of [k] failed attempts are those of [backoff]. *)
Lemma after_iterations_sleeps (k : nat) :
  forall (query : string) (max_retries retries : Z) (s : State),
    attempts_fail k query max_retries retries s = true ->
    exists d,
      trace (after_iterations k query max_retries retries s) = (trace s ++ d)%list /\
      sleeps_of d = backoff k max_retries retries.
Proof.
  induction k as [|k IH]; intros query max_retries retries s Hfail; simpl.
  - exists []. rewrite app_nil_r. auto.
  - simpl in Hfail. apply andb_prop in Hfail as [Hr Hrest].
    destruct (IH _ _ _ _ Hrest) as [d [Hd Hs]]. rewrite Hd.
    destruct (sql_iteration_failure query max_retries retries s Hr)
      as [s1 [Hc [_ [_ Hit]]]].
    destruct (tame_attempt query s) as [_ [d1 [Hd1 Hs1]]].
    destruct (tame__close_connection (snd (attempt query s))) as [_ [d2 [Hd2 Hs2]]].
    rewrite Hc in Hd2. simpl in Hd2.
    rewrite Hit. destruct (retries + 1 <? max_retries); simpl.
    + exists (d1 ++ d2 ++ [ESleep (2 ^ (retries + 1))] ++ d)%list.
      rewrite Hd2, Hd1. repeat rewrite <- app_assoc. split; [reflexivity|].
      repeat rewrite sleeps_of_app. rewrite Hs1, Hs2, Hs. reflexivity.
    + exists (d1 ++ d2 ++ d)%list.
      rewrite Hd2, Hd1. repeat rewrite <- app_assoc. split; [reflexivity|].
      repeat rewrite sleeps_of_app. rewrite Hs1, Hs2, Hs. reflexivity.
Qed.

(** While attempts remain the sleeps are 2, 4, 8, ... *)
Lemma backoff_powers (k : nat) :
  forall (max_retries retries : Z),
    retries + Z.of_nat k < max_retries ->
    backoff k max_retries retries =
      map (fun i => 2 ^ (retries + Z.of_nat i)) (seq 1 k).
Proof.
  induction k as [|k IH]; intros max_retries retries H; [reflexivity|].
  cbn [backoff].
  replace (retries + 1 <? max_retries) with true by (symmetry; apply Z.ltb_lt; lia).
  rewrite IH by lia. cbn [seq map app]. f_equal.
  rewrite <- (seq_shift k 1), map_map. apply map_ext. intro i. f_equal. lia.
Qed.

(** *** Retry and backoff *)

(** C1. With [max_retries = 3] and three failing attempts, [sql] either
    has slept 2s, 4s, 8s before a successful fourth attempt, or returns
    the empty DataFrame right after the third failure with no further
    attempt; the code takes the second branch, having slept 2s and 4s.
    More generally, and whatever the later attempts do, a failed attempt
    that leaves attempts to spare ends with a sleep of [2 ^ attempt]
    seconds, so that [k] failures followed by a success have slept 2, 4,
    ..., [2 ^ k]. *)
Theorem sql_backoff_schedule (query : string) :
  (forall (s : State),
      attempts_fail 3 query 3 0 s = true ->
      let s3 := after_iterations 3 query 3 0 s in
      (exists df s4 d,
          attempt query s3 = (Ok df, s4) /\
          sql query 3 s = (Ok (RetDF df), s4) /\
          trace s4 = (trace s ++ d)%list /\ sleeps_of d = [2; 4; 8])
      \/
      (sql query 3 s = (Ok (RetDF empty_DataFrame), s3) /\
       exists d, trace s3 = (trace s ++ d)%list /\ sleeps_of d = [2; 4]))
  /\
  (forall (max_retries retries : Z) (s0 : State),
      raises (fst (attempt query s0)) = true ->
      retries + 1 < max_retries ->
      exists s1 d,
        sql_iteration query max_retries retries s0 = (Ok (Continue (retries + 1)), s1) /\
        trace s1 = (trace s0 ++ d ++ [ESleep (2 ^ (retries + 1))])%list /\
        sleeps_of d = [])
  /\
  (forall (max_retries : Z) (k : nat) (s0 s' : State) (df : DataFrame),
      Z.of_nat k < max_retries ->
      attempts_fail k query max_retries 0 s0 = true ->
      attempt query (after_iterations k query max_retries 0 s0) = (Ok df, s') ->
      sql query max_retries s0 = (Ok (RetDF df), s') /\
      exists d, trace s' = (trace s0 ++ d)%list /\
                sleeps_of d = map (fun i => 2 ^ Z.of_nat i) (seq 1 k)).
Proof.
  split; [|split].
  - intros s Hfail s3. right. split.
    + unfold sql. apply sql_loop_exhausted; auto; simpl; lia.
    + destruct (after_iterations_sleeps 3 query 3 0 s Hfail) as [d [Hd Hs]].
      exists d. split; [exact Hd|]. rewrite Hs. reflexivity.
  - intros max_retries retries s0 Hr Hlt.
    destruct (sql_iteration_failure query max_retries retries s0 Hr)
      as [s1 [Hc [_ [_ Hit]]]].
    replace (retries + 1 <? max_retries) with true in Hit
      by (symmetry; apply Z.ltb_lt; lia).
    destruct (tame_attempt query s0) as [_ [d1 [Hd1 Hs1]]].
    destruct (tame__close_connection (snd (attempt query s0))) as [_ [d2 [Hd2 Hs2]]].
    rewrite Hc in Hd2. simpl in Hd2.
    eexists; exists (d1 ++ d2)%list. split; [exact Hit|]. split.
    + simpl. rewrite Hd2, Hd1. repeat rewrite <- app_assoc. reflexivity.
    + rewrite sleeps_of_app, Hs1, Hs2. reflexivity.
  - intros max_retries k s0 s' df Hk Hf Hok. split.
    + unfold sql. apply (sql_loop_recovers k); auto; lia.
    + destruct (after_iterations_sleeps k query max_retries 0 s0 Hf) as [d [Hd Hs]].
      destruct (tame_attempt query (after_iterations k query max_retries 0 s0))
        as [_ [d1 [Hd1 Hs1]]].
      rewrite Hok in Hd1. simpl in Hd1.
      exists (d ++ d1)%list. split.
      * rewrite Hd1, Hd, app_assoc. reflexivity.
      * rewrite sleeps_of_app, Hs, Hs1, app_nil_r.
        rewrite backoff_powers by lia. reflexivity.
Qed.

(** C2. When all [max_retries] attempts fail, [sql] returns the empty
    DataFrame, with no columns and no rows; and whatever happens, a call
    of [sql] ends with a result and never with an exception. *)
Theorem sql_exhausted_returns_empty (query : string) (max_retries : Z) (s : State) :
  0 < max_retries ->
  attempts_fail (Z.to_nat max_retries) query max_retries 0 s = true ->
  sql query max_retries s =
    (Ok (RetDF empty_DataFrame),
     after_iterations (Z.to_nat max_retries) query max_retries 0 s) /\
  columns empty_DataFrame = [] /\ rows empty_DataFrame = [] /\
  (forall (q : string) (n : Z) (s0 : State), exists r, fst (sql q n s0) = Ok r).
Proof.
  intros Hpos Hfail. repeat split.
  - unfold sql. apply sql_loop_exhausted; auto; lia.
  - intros q n s0. apply sql_total.
Qed.

(** C10. With [max_retries <= 0] the loop body never runs: [sql] returns
    [None] and leaves the session, the world and the trace as they were,
    so nothing was connected and nothing submitted. *)
Theorem sql_no_retries_returns_None (query : string) (max_retries : Z) (s : State) :
  max_retries <= 0 ->
  sql query max_retries s = (Ok RetNone, s).
Proof.
  intro H. unfold sql.
  destruct (Z.to_nat max_retries); simpl;
    replace (0 <? max_retries) with false by (symmetry; apply Z.ltb_ge; lia);
    reflexivity.
Qed.

(** C7. [close] always returns; afterwards connection and cursor are both
    [None]; closing again changes nothing, and closing a session that
    never connected changes nothing either. *)
Theorem close_idempotent (s : State) :
  exists s',
    close s = (Ok tt, s') /\
    connection s' = None /\ cursor s' = None /\
    close s' = (Ok tt, s') /\
    (forall w, close (init_State w) = (Ok tt, init_State w)).
Proof.
  unfold close.
  destruct (_close_connection_returns s) as [s' [Hc [Hn Hk]]].
  exists s'. repeat split; auto.
  apply _close_connection_disconnected; assumption.
Qed.

(** *** Connection resolver *)

Lemma tame_try_warehouse : tame try_warehouse.
Proof.
  unfold try_warehouse.
  repeat first [ apply tame_hostname_of_host | apply tame_connect | tame_step ].
Qed.

Lemma tame_try_protocol : tame try_protocol.
Proof.
  unfold try_protocol.
  repeat first [ apply tame_hostname_of_host | apply tame_connect | tame_step ].
Qed.

Lemma tame_try_endpoint : tame try_endpoint.
Proof.
  unfold try_endpoint.
  repeat first [ apply tame_hostname_of_host | apply tame_connect | tame_step ].
Qed.

(** A [connect] is one call of the connector, recorded as such. *)
Lemma connect_trace (hostname http_path : string) (s : State) :
  trace (snd (connect hostname http_path s)) =
    (trace s ++ [EConnect hostname http_path (DATABRICKS_TOKEN env)])%list.
Proof.
  unfold connect, call.
  destruct (sql_connect db hostname http_path (DATABRICKS_TOKEN env) (world s))
    as [[c|e] w']; reflexivity.
Qed.

(** With a host configured, each strategy is a single [connect] on its
    own path. *)
Lemma strategies_with_host (h : string) (s : State) :
  DATABRICKS_HOST env = Some h ->
  let hostname := str_replace "https://" "" h in
  try_warehouse s = connect hostname warehouse_path s /\
  try_protocol s = connect hostname (protocol_path (workspace_id_of hostname)) s /\
  try_endpoint s = connect hostname endpoint_path s.
Proof.
  intro H. unfold try_warehouse, try_protocol, try_endpoint, hostname_of_host.
  rewrite H. unfold bind, ret. simpl.
  repeat split;
    match goal with
    | |- context [connect ?a ?b s] => destruct (connect a b s) as [[c|e|] s1]; reflexivity
    end.
Qed.

(** Without a host every strategy raises before it reaches the connector. *)
Lemma strategies_without_host (s : State) :
  DATABRICKS_HOST env = None ->
  raises (fst (try_warehouse s)) = true /\ snd (try_warehouse s) = s /\
  raises (fst (try_protocol s)) = true /\ snd (try_protocol s) = s /\
  raises (fst (try_endpoint s)) = true /\ snd (try_endpoint s) = s.
Proof.
  intro H. unfold try_warehouse, try_protocol, try_endpoint, hostname_of_host.
  rewrite H. unfold bind, raise. simpl. repeat split.
Qed.

(** C3. [get_connection] tries the warehouse path, then the protocol
    path, then the endpoint path.  It returns the connection of the first
    strategy that succeeds, in the state that strategy left, so that no
    later strategy has run; it returns [None] exactly when all three
    raise.  Each strategy is one [connect] on its own path, and none is
    made when no host is configured. *)
Theorem get_connection_first_success (s : State) :
  exists r s',
    get_connection s = (Ok r, s') /\
    match try_warehouse s with
    | (Ok c, s1) => r = Some c /\ s' = s1
    | (_, s1) =>
        match try_protocol s1 with
        | (Ok c, s2) => r = Some c /\ s' = s2
        | (_, s2) =>
            match try_endpoint s2 with
            | (Ok c, s3) => r = Some c /\ s' = s3
            | (_, s3) => r = None /\ s' = s3
            end
        end
    end /\
    (r = None <->
     raises (fst (try_warehouse s))
     && raises (fst (try_protocol (snd (try_warehouse s))))
     && raises (fst (try_endpoint (snd (try_protocol (snd (try_warehouse s))))))
     = true) /\
    (forall (h : string) (s0 : State),
        DATABRICKS_HOST env = Some h ->
        let hostname := str_replace "https://" "" h in
        try_warehouse s0 = connect hostname warehouse_path s0 /\
        try_protocol s0 = connect hostname (protocol_path (workspace_id_of hostname)) s0 /\
        try_endpoint s0 = connect hostname endpoint_path s0) /\
    (forall (hostname http_path : string) (s0 : State),
        trace (snd (connect hostname http_path s0)) =
          (trace s0 ++ [EConnect hostname http_path (DATABRICKS_TOKEN env)])%list) /\
    (DATABRICKS_HOST env = None -> r = None /\ s' = s).
Proof.
  assert (Hgen : exists r s',
    get_connection s = (Ok r, s') /\
    match try_warehouse s with
    | (Ok c, s1) => r = Some c /\ s' = s1
    | (_, s1) =>
        match try_protocol s1 with
        | (Ok c, s2) => r = Some c /\ s' = s2
        | (_, s2) =>
            match try_endpoint s2 with
            | (Ok c, s3) => r = Some c /\ s' = s3
            | (_, s3) => r = None /\ s' = s3
            end
        end
    end /\
    (r = None <->
     raises (fst (try_warehouse s))
     && raises (fst (try_protocol (snd (try_warehouse s))))
     && raises (fst (try_endpoint (snd (try_protocol (snd (try_warehouse s))))))
     = true)).
  { unfold get_connection, try_except, bind.
    pose proof (proj1 (tame_try_warehouse s)) as F1.
    destruct (try_warehouse s) as [[c|e1|] s1]; simpl in *; [| |congruence].
    { exists (Some c), s1. repeat split; intros; discriminate. }
    pose proof (proj1 (tame_try_protocol s1)) as F2.
    destruct (try_protocol s1) as [[c|e2|] s2]; simpl in *; [| |congruence].
    { exists (Some c), s2. repeat split; intros; discriminate. }
    pose proof (proj1 (tame_try_endpoint s2)) as F3.
    destruct (try_endpoint s2) as [[c|e3|] s3]; simpl in *; [| |congruence].
    { exists (Some c), s3. repeat split; intros; discriminate. }
    exists None, s3. repeat split; reflexivity. }
  destruct Hgen as [r [s' [Hg [Hm Hiff]]]].
  exists r, s'. split; [exact Hg|]. split; [exact Hm|]. split; [exact Hiff|].
  split; [intros h s0 Hh; apply strategies_with_host; exact Hh|].
  split; [apply connect_trace|].
  intro Hnone.
  destruct (strategies_without_host s Hnone) as [R1 [S1 [R2 [S2 [R3 S3]]]]].
  destruct (try_warehouse s) as [[c|e1|] s1]; simpl in *; try discriminate. subst s1.
  destruct (try_protocol s) as [[c|e2|] s2]; simpl in *; try discriminate. subst s2.
  destruct (try_endpoint s) as [[c|e3|] s3]; simpl in *; try discriminate. subst s3.
  exact Hm.
Qed.

(** *** Reading columns *)

Lemma positions_from_present (cols : list string) :
  forall (i : nat) (col : string),
    str_in col cols = true -> positions_from i col cols <> [].
Proof.
  induction cols as [|c cols IH]; intros i col H; simpl in *; [discriminate|].
  destruct (String.eqb c col) eqn:E; [discriminate|].
  rewrite String.eqb_sym, E in H. simpl in H. apply IH. exact H.
Qed.

Lemma positions_from_absent (cols : list string) :
  forall (i : nat) (col : string),
    ~ In col cols -> positions_from i col cols = [].
Proof.
  induction cols as [|c cols IH]; intros i col H; simpl in *; [reflexivity|].
  destruct (String.eqb c col) eqn:E.
  - apply String.eqb_eq in E. exfalso. apply H. left. exact E.
  - apply IH. intro Hin. apply H. right. exact Hin.
Qed.

(** Under distinct labels the positions of a label are its one index. *)
Lemma positions_from_unique (cols : list string) :
  forall (i n : nat) (col : string),
    NoDup cols -> nth_error cols n = Some col ->
    positions_from i col cols = [(i + n)%nat].
Proof.
  induction cols as [|c cols IH]; intros i n col Hnd Hn.
  - destruct n; discriminate.
  - inversion Hnd as [|? ? Hnotin Hnd']; subst. destruct n as [|n]; simpl in *.
    + inversion Hn; subst. rewrite String.eqb_refl.
      rewrite positions_from_absent by assumption. f_equal. lia.
    + destruct (String.eqb c col) eqn:E.
      * apply String.eqb_eq in E. subst c. exfalso. apply Hnotin.
        eapply nth_error_In. exact Hn.
      * rewrite (IH (S i) n col Hnd' Hn). f_equal. lia.
Qed.

Lemma cell_unique (df : DataFrame) (col : string) (n : nat) (row : list PyVal) :
  NoDup (columns df) -> nth_error (columns df) n = Some col ->
  cell df col row = nth n row PNone.
Proof.
  intros Hnd Hn. unfold cell.
  rewrite (positions_from_unique (columns df) 0 n col Hnd Hn). reflexivity.
Qed.

Lemma row_getitem_present (df : DataFrame) (row : list PyVal) (col : string) :
  has_column df col = true -> row_getitem df row col = Returns (cell df col row).
Proof.
  intro H. unfold row_getitem, cell.
  pose proof (positions_from_present (columns df) 0 col H) as Hne.
  destruct (positions_from 0 col (columns df)) as [|i [|j ps]];
    [contradiction | reflexivity | reflexivity].
Qed.

Lemma column_values_present (df : DataFrame) (col : string) :
  has_column df col = true ->
  column_values df col = Returns (map (cell df col) (rows df)).
Proof.
  intro H. unfold column_values.
  induction (rows df) as [|row rs IH]; simpl; [reflexivity|].
  rewrite (row_getitem_present df row col H), IH. reflexivity.
Qed.

Lemma descriptors_present (df : DataFrame) (col : string) (catalog schema : PyVal) :
  has_column df col = true ->
  comprehension
    (fun row =>
       match row_getitem df row col with
       | Returns v => Returns (table_descriptor catalog schema v)
       | Throws e => Throws e
       end) (rows df)
  = Returns (map (fun row => table_descriptor catalog schema (cell df col row)) (rows df)).
Proof.
  intro H.
  induction (rows df) as [|row rs IH]; simpl; [reflexivity|].
  rewrite (row_getitem_present df row col H), IH. reflexivity.
Qed.

(** *** The three listing functions *)

Lemma spark_sql_total (query : string) (s : State) :
  exists r s', spark_sql query s = (Ok r, s').
Proof.
  destruct (sql_total query 3 s) as [r Hr]. unfold spark_sql.
  destruct (sql query 3 s) as [o s']. simpl in Hr. subst o. eauto.
Qed.

(** With the default three retries it is a DataFrame that comes back. *)
Lemma spark_sql_returns_DataFrame (query : string) (s : State) :
  exists df s', spark_sql query s = (Ok (RetDF df), s').
Proof.
  destruct (sql_loop_returns_DataFrame (Z.to_nat 3) query 3 0 s) as [df Hdf];
    [simpl; lia | lia |].
  unfold spark_sql, sql.
  destruct (sql_loop (Z.to_nat 3) query 3 0 s) as [o s']. simpl in Hdf. subst o. eauto.
Qed.

Lemma list_catalogs_returns (s : State) :
  exists l s', list_catalogs s = (Ok l, s').
Proof.
  unfold list_catalogs, try_except, list_catalogs_body, bind.
  destruct (spark_sql_total "SHOW CATALOGS" s) as [r [s1 Hr]]. rewrite Hr.
  destruct r as [df|]; unfold the_df, ret, raise; simpl; [|eauto].
  destruct (column_values df "catalog"); simpl; eauto.
Qed.

(** What [list_schemas] returns once the query has produced [df]. *)
Lemma list_schemas_of_result (catalog : PyVal) (s s1 : State) (df : DataFrame) :
  spark_sql ("SHOW SCHEMAS IN " ++ py_str catalog) s = (Ok (RetDF df), s1) ->
  list_schemas catalog s =
    (Ok (match first_present df ["namespace"; "schema"; "databaseName"] with
         | Some col => map (cell df col) (rows df)
         | None => []
         end), s1).
Proof.
  intro H. unfold list_schemas, try_except, list_schemas_body, bind.
  rewrite H. unfold first_present. simpl.
  destruct (has_column df "namespace") eqn:E1.
  { rewrite (column_values_present df _ E1). reflexivity. }
  destruct (has_column df "schema") eqn:E2.
  { rewrite (column_values_present df _ E2). reflexivity. }
  destruct (has_column df "databaseName") eqn:E3.
  { rewrite (column_values_present df _ E3). reflexivity. }
  reflexivity.
Qed.

Lemma list_schemas_returns (catalog : PyVal) (s : State) :
  exists l s', list_schemas catalog s = (Ok l, s').
Proof.
  destruct (spark_sql_total ("SHOW SCHEMAS IN " ++ py_str catalog) s) as [r [s1 Hr]].
  destruct r as [df|].
  - rewrite (list_schemas_of_result catalog s s1 df Hr). eauto.
  - unfold list_schemas, try_except, list_schemas_body, bind. rewrite Hr.
    unfold the_df, ret, raise. simpl. eauto.
Qed.

(** What [list_tables_in_schema] returns once the query has produced [df]. *)
Lemma list_tables_in_schema_of_result (catalog schema : PyVal) (s s1 : State)
    (df : DataFrame) :
  spark_sql ("SHOW TABLES IN " ++ py_str catalog ++ "." ++ py_str schema) s
    = (Ok (RetDF df), s1) ->
  list_tables_in_schema catalog schema s =
    (Ok (match first_present df ["tableName"; "name"] with
         | Some col => map (fun row => table_descriptor catalog schema (cell df col row))
                           (rows df)
         | None => []
         end), s1).
Proof.
  intro H. unfold list_tables_in_schema, try_except, list_tables_in_schema_body, bind.
  rewrite H. unfold first_present. simpl.
  destruct (has_column df "tableName") eqn:E1.
  { rewrite (descriptors_present df _ catalog schema E1). reflexivity. }
  destruct (has_column df "name") eqn:E2.
  { rewrite (descriptors_present df _ catalog schema E2). reflexivity. }
  reflexivity.
Qed.

(** [list_tables_in_schema] always returns, and only descriptors of the
    catalog and schema it was asked about. *)
Lemma list_tables_in_schema_returns (catalog schema : PyVal) (s : State) :
  exists l s',
    list_tables_in_schema catalog schema s = (Ok l, s') /\
    Forall (fun d => exists name, d = table_descriptor catalog schema name) l.
Proof.
  destruct (spark_sql_total ("SHOW TABLES IN " ++ py_str catalog ++ "." ++ py_str schema) s)
    as [r [s1 Hr]].
  destruct r as [df|].
  - rewrite (list_tables_in_schema_of_result catalog schema s s1 df Hr).
    eexists; eexists; split; [reflexivity|].
    destruct (first_present df ["tableName"; "name"]); [|constructor].
    apply Forall_forall. intros d Hd. apply in_map_iff in Hd as [row [Hrow _]].
    eexists. symmetry. exact Hrow.
  - unfold list_tables_in_schema, try_except, list_tables_in_schema_body, bind.
    rewrite Hr. unfold the_df, ret, raise. simpl. eauto.
Qed.

(** A query whose three attempts all fail looks like an empty result to
    the listing functions. *)
Lemma spark_sql_exhausted (query : string) (s : State) :
  attempts_fail 3 query 3 0 s = true ->
  spark_sql query s = (Ok (RetDF empty_DataFrame), after_iterations 3 query 3 0 s).
Proof.
  intro H. unfold spark_sql, sql. apply sql_loop_exhausted; auto; simpl; lia.
Qed.

(** *** The recursive traversal *)

(** The test on a catalog or schema name does not touch the state. *)
Lemma skip_system_pure (exclude_system : bool) (x : PyVal) (s : State) :
  snd (skip_system exclude_system x s) = s /\
  fst (skip_system exclude_system x s) <> OutOfFuel.
Proof.
  unfold skip_system. destruct exclude_system; [destruct x|]; simpl; split;
    (reflexivity || discriminate).
Qed.

(** The inner loop keeps what was collected and adds descriptors of its
    catalog only; it cannot run out of fuel. *)
Lemma for_schemas_invariant (P : Dict -> Prop) (exclude_system : bool) (catalog : PyVal) :
  (forall schema name, P (table_descriptor catalog schema name)) ->
  forall (schemas : list PyVal) (acc : list Dict) (s : State),
    Forall P acc ->
    fst (for_schemas exclude_system catalog schemas acc s) <> OutOfFuel /\
    forall l s',
      for_schemas exclude_system catalog schemas acc s = (Ok l, s') ->
      Forall P l /\ exists more, l = (acc ++ more)%list.
Proof.
  intros HP schemas. induction schemas as [|schema schemas IH]; intros acc s Hacc; simpl.
  - split; [discriminate|]. intros l s' H. inversion H; subst.
    split; [assumption|]. exists []. rewrite app_nil_r. reflexivity.
  - unfold bind.
    destruct (skip_system_pure exclude_system schema s) as [Hs Hf].
    destruct (skip_system exclude_system schema s) as [[skip|e|] s0];
      simpl in Hs, Hf; subst s0; [| |congruence].
    + destruct skip.
      * apply IH. assumption.
      * destruct (list_tables_in_schema_returns catalog schema s) as [ts [s1 [Hts Hall]]].
        rewrite Hts.
        assert (Hacc' : Forall P (acc ++ ts)%list).
        { apply Forall_app. split; [assumption|].
          eapply Forall_impl; [|exact Hall]. intros d [name ->]. apply HP. }
        destruct (IH (acc ++ ts)%list s1 Hacc') as [Hfuel Hres].
        split; [exact Hfuel|]. intros l s' H.
        destruct (Hres l s' H) as [Hl [more Hm]].
        split; [exact Hl|]. exists (ts ++ more)%list. rewrite Hm, app_assoc. reflexivity.
    + split; [discriminate|]. intros l s' H. discriminate.
Qed.

(** The same for the outer loop, for a property that holds of the
    descriptors of every catalog that is not skipped. *)
Lemma for_catalogs_invariant (P : Dict -> Prop) (exclude_system : bool) :
  (forall catalog s,
      skip_system exclude_system catalog s = (Ok false, s) ->
      forall schema name, P (table_descriptor catalog schema name)) ->
  forall (catalogs : list PyVal) (acc : list Dict) (s : State),
    Forall P acc ->
    fst (for_catalogs exclude_system catalogs acc s) <> OutOfFuel /\
    forall l s',
      for_catalogs exclude_system catalogs acc s = (Ok l, s') ->
      Forall P l /\ exists more, l = (acc ++ more)%list.
Proof.
  intros HP catalogs. induction catalogs as [|catalog catalogs IH]; intros acc s Hacc; simpl.
  - split; [discriminate|]. intros l s' H. inversion H; subst.
    split; [assumption|]. exists []. rewrite app_nil_r. reflexivity.
  - unfold bind.
    destruct (skip_system_pure exclude_system catalog s) as [Hs Hf].
    destruct (skip_system exclude_system catalog s) as [[skip|e|] s0] eqn:Hskip;
      simpl in Hs, Hf; subst s0; [| |congruence].
    + destruct skip.
      * apply IH. assumption.
      * destruct (list_schemas_returns catalog s) as [schemas [s1 Hsch]]. rewrite Hsch.
        destruct (for_schemas_invariant P exclude_system catalog (HP catalog s Hskip)
                    schemas acc s1 Hacc) as [Hfuel Hres].
        destruct (for_schemas exclude_system catalog schemas acc s1) as [[acc'|e|] s2];
          simpl in Hfuel; [| |congruence].
        -- destruct (Hres acc' s2 eq_refl) as [Hacc' [more1 Hm1]].
           destruct (IH acc' s2 Hacc') as [Hfuel' Hres'].
           split; [exact Hfuel'|]. intros l s' H.
           destruct (Hres' l s' H) as [Hl [more Hm]].
           split; [exact Hl|]. exists (more1 ++ more)%list.
           rewrite Hm, Hm1, app_assoc. reflexivity.
        -- split; [discriminate|]. intros l s' H. discriminate.
    + split; [discriminate|]. intros l s' H. discriminate.
Qed.

(** The recursive listing always returns, and what it returns satisfies
    any such property. *)
Lemma _list_all_tables_recursive_returns (P : Dict -> Prop) (exclude_system : bool) :
  (forall catalog s,
      skip_system exclude_system catalog s = (Ok false, s) ->
      forall schema name, P (table_descriptor catalog schema name)) ->
  forall s, exists l s',
    _list_all_tables_recursive exclude_system s = (Ok l, s') /\ Forall P l.
Proof.
  intros HP s. unfold _list_all_tables_recursive, try_except, bind.
  destruct (list_catalogs_returns s) as [catalogs [s1 Hc]]. rewrite Hc.
  destruct (for_catalogs_invariant P exclude_system HP catalogs [] s1 (Forall_nil P))
    as [Hfuel Hres].
  destruct (for_catalogs exclude_system catalogs [] s1) as [[l|e|] s2];
    simpl in Hfuel; [| |congruence].
  - exists l, s2. split; [reflexivity|]. apply (Hres l s2 eq_refl).
  - exists [], s2. split; [reflexivity|constructor].
Qed.

(** *** System names *)

Lemma str_in_false (x : string) (l : list string) :
  str_in x l = false -> ~ In x l.
Proof.
  unfold str_in. induction l as [|y l IH]; simpl; intros H Hin; [exact Hin|].
  apply orb_false_iff in H as [Hxy Hl]. destruct Hin as [->|Hin].
  - rewrite String.eqb_refl in Hxy. discriminate.
  - exact (IH Hl Hin).
Qed.

(** *** Properties of the descriptors *)





(** C4. When the information_schema query comes back with zero rows,
    [list_all_tables] is the recursive listing with system exclusion on,
    run in the state the query left; a query whose three attempts all
    fail is such a case. *)
Theorem list_all_tables_falls_back (s s1 : State) (df : DataFrame) :
  spark_sql metadata_query s = (Ok (RetDF df), s1) ->
  rows df = [] ->
  list_all_tables s = _list_all_tables_recursive true s1 /\
  (forall s0,
      attempts_fail 3 metadata_query 3 0 s0 = true ->
      list_all_tables s0 =
        _list_all_tables_recursive true (after_iterations 3 metadata_query 3 0 s0)).
Proof.
  assert (Hfb : forall s0 s2 df0,
             spark_sql metadata_query s0 = (Ok (RetDF df0), s2) ->
             rows df0 = [] ->
             list_all_tables s0 = _list_all_tables_recursive true s2).
  { intros s0 s2 df0 H Hrows.
    unfold list_all_tables, try_except, list_all_tables_body, bind.
    rewrite H. unfold the_df, ret. simpl.
    unfold df_empty. rewrite Hrows. simpl. rewrite orb_true_r.
    destruct (_list_all_tables_recursive_returns (fun _ => True) true
                (fun _ _ _ _ _ => I) s2) as [l [s' [Hl _]]].
    rewrite Hl. reflexivity. }
  intros H Hrows. split.
  - exact (Hfb s s1 df H Hrows).
  - intros s0 Hfail.
    exact (Hfb s0 _ _ (spark_sql_exhausted metadata_query s0 Hfail) eq_refl).
Qed.


(** C6. For every catalog the schema query produces a DataFrame, and
    [list_schemas] returns the cells of the first of the columns
    [namespace], [schema], [databaseName] that this DataFrame has, one
    per row and in row order, and the empty list when it has none of
    them; under distinct labels the cell of a row is its entry at the
    position of the label. *)
Theorem list_schemas_probes_columns (catalog : PyVal) (s : State) :
  exists df s1,
    spark_sql ("SHOW SCHEMAS IN " ++ py_str catalog) s = (Ok (RetDF df), s1) /\
    list_schemas catalog s =
      (Ok (match first_present df ["namespace"; "schema"; "databaseName"] with
           | Some col => map (cell df col) (rows df)
           | None => []
           end), s1) /\
    (forall col n row,
        NoDup (columns df) -> nth_error (columns df) n = Some col ->
        cell df col row = nth n row PNone).
Proof.
  destruct (spark_sql_returns_DataFrame ("SHOW SCHEMAS IN " ++ py_str catalog) s)
    as [df [s1 H]].
  exists df, s1. split; [exact H|]. split.
  - apply list_schemas_of_result. exact H.
  - intros col n row. apply cell_unique.
Qed.


(** A catalog name that is not a [str] is another matter: with system
    exclusion on, [startswith] raises in the loop itself, outside the
    listing functions. *)
Remark for_catalogs_non_string (repr : string) (rest : list PyVal)
    (acc : list Dict) (s : State) :
  raises (fst (for_catalogs true (PObj repr :: rest) acc s)) = true.
Proof. reflexivity. Qed.









(** ** Further properties of the session *)

(** *** What a call may cost *)

Lemma connects_of_app (a b : list Event) :
  connects_of (a ++ b)%list = (connects_of a ++ connects_of b)%list.
Proof. unfold connects_of. apply flat_map_app. Qed.

Lemma executes_of_app (a b : list Event) :
  executes_of (a ++ b)%list = (executes_of a ++ executes_of b)%list.
Proof. unfold executes_of. apply flat_map_app. Qed.

Lemma Zsum_app (a b : list Z) : Zsum (a ++ b)%list = Zsum a + Zsum b.
Proof. induction a as [|x a IH]; simpl; [reflexivity|]. rewrite IH. lia. Qed.

Lemma within_nothing (query : string) {A} (m : M A) :
  (forall s, trace (snd (m s)) = trace s) -> within query 0 0 0 m.
Proof.
  intros H s. exists []. rewrite app_nil_r. simpl.
  repeat split; auto; try lia.
Qed.

Lemma within_weaken (query : string) (c c' x x' : nat) (z z' : Z) {A} (m : M A) :
  (c <= c')%nat -> (x <= x')%nat -> z <= z' ->
  within query c x z m -> within query c' x' z' m.
Proof.
  intros Hc Hx Hz H s. destruct (H s) as [d [Hd [H1 [H2 [H3 H4]]]]].
  exists d. repeat split; auto; lia.
Qed.

Lemma within_bind (query : string) (c1 c2 x1 x2 : nat) (z1 z2 : Z) {A B}
    (m : M A) (f : A -> M B) :
  0 <= z2 ->
  within query c1 x1 z1 m -> (forall a, within query c2 x2 z2 (f a)) ->
  within query (c1 + c2) (x1 + x2) (z1 + z2) (bind m f).
Proof.
  intros Hz Hm Hf s. unfold bind.
  destruct (Hm s) as [d [Hd [H1 [H2 [H3 H4]]]]].
  destruct (m s) as [[a|e|] s1]; simpl in *;
    try (exists d; repeat split; auto; lia).
  destruct (Hf a s1) as [d' [Hd' [H1' [H2' [H3' H4']]]]].
  exists (d ++ d')%list. rewrite Hd', Hd, app_assoc.
  rewrite connects_of_app, executes_of_app, sleeps_of_app, Zsum_app.
  repeat rewrite length_app.
  repeat split; auto; try lia. apply Forall_app; auto.
Qed.

Lemma within_try_except (query : string) (c1 c2 x1 x2 : nat) (z1 z2 : Z) {A}
    (m : M A) (h : Exn -> M A) :
  0 <= z2 ->
  within query c1 x1 z1 m -> (forall e, within query c2 x2 z2 (h e)) ->
  within query (c1 + c2) (x1 + x2) (z1 + z2) (try_except m h).
Proof.
  intros Hz Hm Hh s. unfold try_except.
  destruct (Hm s) as [d [Hd [H1 [H2 [H3 H4]]]]].
  destruct (m s) as [[a|e|] s1]; simpl in *;
    try (exists d; repeat split; auto; lia).
  destruct (Hh e s1) as [d' [Hd' [H1' [H2' [H3' H4']]]]].
  exists (d ++ d')%list. rewrite Hd', Hd, app_assoc.
  rewrite connects_of_app, executes_of_app, sleeps_of_app, Zsum_app.
  repeat rewrite length_app.
  repeat split; auto; try lia. apply Forall_app; auto.
Qed.

Lemma within_call (query : string) (c x : nat) {A} (ev : Event) (op : W -> Reply A * W) :
  (List.length (connects_of [ev]) <= c)%nat ->
  (List.length (executes_of [ev]) <= x)%nat ->
  Forall (eq query) (executes_of [ev]) ->
  sleeps_of [ev] = [] ->
  within query c x 0 (call ev op).
Proof.
  intros Hc Hx Hq Hs s. exists [ev]. unfold call.
  destruct (op (world s)) as [[a|e] w']; simpl trace;
    rewrite Hs; repeat split; auto; simpl; lia.
Qed.

Lemma within_ret (query : string) {A} (a : A) : within query 0 0 0 (ret a).
Proof. apply within_nothing. reflexivity. Qed.

Lemma within_raise (query : string) {A} (e : Exn) : within query 0 0 0 (@raise A e).
Proof. apply within_nothing. reflexivity. Qed.

Lemma within_read (query : string) {A} (op : W -> Reply A) : within query 0 0 0 (read op).
Proof.
  apply within_nothing. intro s. unfold read. destruct (op (world s)); reflexivity.
Qed.

Lemma within_lift_reply (query : string) {A} (r : Reply A) :
  within query 0 0 0 (lift_reply r).
Proof. destruct r; [apply within_ret | apply within_raise]. Qed.

Lemma within_time_sleep (query : string) (seconds : Z) :
  within query 0 0 seconds (time_sleep seconds).
Proof.
  intro s. exists [ESleep seconds]. simpl. repeat split; auto; lia.
Qed.

Lemma within_strategy (query : string) (path : string -> string) :
  within query 1 0 0 (hostname <- hostname_of_host ;; connect hostname (path hostname)).
Proof.
  apply (within_bind query 0 1 0 0 0 0); [lia| |].
  - unfold hostname_of_host. destruct (DATABRICKS_HOST env);
      [apply within_ret | apply within_raise].
  - intro h. unfold connect. apply within_call; simpl; auto.
Qed.

Lemma within_get_connection (query : string) : within query 3 0 0 get_connection.
Proof.
  unfold get_connection.
  apply (within_try_except query 1 2 0 0 0 0); [lia| |intro e].
  { apply (within_bind query 1 0 0 0 0 0); [lia| |intro; apply within_ret].
    apply (within_strategy query (fun _ => warehouse_path)). }
  apply (within_try_except query 1 1 0 0 0 0); [lia| |intro e2].
  { apply (within_bind query 1 0 0 0 0 0); [lia| |intro; apply within_ret].
    apply (within_strategy query (fun h => protocol_path (workspace_id_of h))). }
  apply (within_try_except query 1 0 0 0 0 0); [lia| |intro e3; apply within_ret].
  apply (within_bind query 1 0 0 0 0 0); [lia| |intro; apply within_ret].
  apply (within_strategy query (fun _ => endpoint_path)).
Qed.

Lemma within__ensure_connection (query : string) : within query 3 0 0 _ensure_connection.
Proof.
  unfold _ensure_connection.
  apply (within_bind query 0 3 0 0 0 0); [lia|apply within_nothing; reflexivity|].
  intros [c|]; [apply (within_weaken query 0 3 0 0 0 0); try lia; apply within_ret|].
  apply (within_bind query 3 0 0 0 0 0); [lia|apply within_get_connection|].
  intro c'.
  apply (within_bind query 0 0 0 0 0 0); [lia|apply within_nothing; reflexivity|].
  intros _. destruct c' as [conn|]; [|apply within_ret].
  apply (within_bind query 0 0 0 0 0 0); [lia| |intro; apply within_nothing; reflexivity].
  apply within_call; simpl; auto.
Qed.

Lemma within_attempt (query : string) : within query 3 1 0 (attempt query).
Proof.
  unfold attempt.
  apply (within_bind query 3 0 0 1 0 0); [lia|apply within__ensure_connection|].
  intros _.
  apply (within_bind query 0 0 0 1 0 0); [lia|apply within_nothing; reflexivity|].
  intro c.
  apply (within_bind query 0 0 0 1 0 0); [lia|apply within_nothing; reflexivity|].
  intro k.
  destruct c as [c|], k as [k|];
    try (apply (within_weaken query 0 0 0 1 0 0); try lia; apply within_raise).
  apply (within_bind query 0 0 1 0 0 0); [lia| |intros _].
  { apply within_call; simpl; auto. }
  apply (within_bind query 0 0 0 0 0 0); [lia|apply within_read|intro description].
  apply (within_bind query 0 0 0 0 0 0); [lia| |intro data; apply within_lift_reply].
  apply within_call; simpl; auto.
Qed.

Lemma within__close_connection (query : string) : within query 0 0 0 _close_connection.
Proof.
  unfold _close_connection, swallow.
  apply (within_bind query 0 0 0 0 0 0); [lia| |intros _].
  { apply (within_try_except query 0 0 0 0 0 0); [lia| |intro; apply within_ret].
    apply (within_bind query 0 0 0 0 0 0); [lia|apply within_nothing; reflexivity|].
    intros [k|]; [apply within_call; simpl; auto | apply within_ret]. }
  apply (within_bind query 0 0 0 0 0 0); [lia| |intros _].
  { apply (within_try_except query 0 0 0 0 0 0); [lia| |intro; apply within_ret].
    apply (within_bind query 0 0 0 0 0 0); [lia|apply within_nothing; reflexivity|].
    intros [c|]; [apply within_call; simpl; auto | apply within_ret]. }
  apply (within_bind query 0 0 0 0 0 0); [lia|apply within_nothing; reflexivity|].
  intros _. apply within_nothing; reflexivity.
Qed.

Lemma within_sql_iteration (query : string) (max_retries retries : Z) :
  0 <= retries ->
  within query 3 1 (if retries + 1 <? max_retries then 2 ^ (retries + 1) else 0)
         (sql_iteration query max_retries retries).
Proof.
  intro Hr. unfold sql_iteration.
  assert (Hpow : 0 <= 2 ^ (retries + 1)) by (apply Z.pow_nonneg; lia).
  apply (within_try_except query 3 0 1 0 0
           (if retries + 1 <? max_retries then 2 ^ (retries + 1) else 0)).
  - destruct (retries + 1 <? max_retries); lia.
  - apply (within_bind query 3 0 1 0 0 0); [lia|apply within_attempt|].
    intro df. apply within_ret.
  - intro e.
    apply (within_bind query 0 0 0 0 0
             (if retries + 1 <? max_retries then 2 ^ (retries + 1) else 0)).
    + destruct (retries + 1 <? max_retries); lia.
    + apply within__close_connection.
    + intros _. destruct (retries + 1 <? max_retries); [|apply within_ret].
      apply (within_weaken query 0 0 0 0 (2 ^ (retries + 1) + 0)); try lia.
      apply (within_bind query 0 0 0 0 (2 ^ (retries + 1)) 0);
        [lia|apply within_time_sleep|intro; apply within_ret].
Qed.

(** The budget of the whole loop, from [retries] failures on. *)
Lemma within_sql_loop (fuel : nat) (query : string) (max_retries : Z) :
  forall retries,
    0 <= retries ->
    within query (3 * Z.to_nat (max_retries - retries)) (Z.to_nat (max_retries - retries))
           (if retries <? max_retries then 2 ^ max_retries - 2 ^ (retries + 1) else 0)
           (sql_loop fuel query max_retries retries).
Proof.
  induction fuel as [|fuel IH]; intros retries Hr s.
  - simpl. exists []. rewrite app_nil_r. simpl.
    destruct (retries <? max_retries) eqn:L; simpl; repeat split; auto; try lia.
    apply Z.ltb_lt in L.
    assert (2 ^ (retries + 1) <= 2 ^ max_retries) by (apply Z.pow_le_mono_r; lia). lia.
  - simpl. destruct (retries <? max_retries) eqn:L.
    2:{ exists []. rewrite app_nil_r. simpl. repeat split; auto; lia. }
    apply Z.ltb_lt in L. unfold bind.
    destruct (within_sql_iteration query max_retries retries Hr s)
      as [d [Hd [H1 [H2 [H3 H4]]]]].
    destruct (sql_iteration_step query max_retries retries s) as [st [Hst [Hc _]]].
    destruct (sql_iteration query max_retries retries s) as [o s1].
    simpl in Hst, Hd. subst o.
    assert (P1 : 2 ^ (retries + 1 + 1) = 2 * 2 ^ (retries + 1))
      by (rewrite (Z.pow_add_r 2 (retries + 1) 1) by lia; change (2 ^ 1) with 2; lia).
    destruct st as [r|r'].
    + exists d. simpl. repeat split; auto; try lia.
      destruct (retries + 1 <? max_retries) eqn:L1.
      * apply Z.ltb_lt in L1.
        assert (2 ^ (retries + 1 + 1) <= 2 ^ max_retries)
          by (apply Z.pow_le_mono_r; lia). lia.
      * assert (2 ^ (retries + 1) <= 2 ^ max_retries)
          by (apply Z.pow_le_mono_r; lia). lia.
    + destruct (Hc r' eq_refl) as [-> Hlt].
      destruct (IH (retries + 1) ltac:(lia) s1) as [d' [Hd' [H1' [H2' [H3' H4']]]]].
      exists (d ++ d')%list. rewrite Hd', Hd, app_assoc.
      rewrite connects_of_app, executes_of_app, sleeps_of_app, Zsum_app.
      repeat rewrite length_app.
      replace (retries + 1 <? max_retries) with true in *
        by (symmetry; apply Z.ltb_lt; lia).
      replace (Z.to_nat (max_retries - retries))
        with (S (Z.to_nat (max_retries - (retries + 1)))) by lia.
      repeat split; auto; try lia. apply Forall_app; auto.
Qed.

(** X1. A call [sql(query, max_retries)] opens at most three connections
    per attempt and submits at most one statement per attempt, so at
    most [3 * max_retries] and [max_retries] in all; every statement it
    submits is [query] itself; and it sleeps at most
    [2 ^ max_retries - 2] seconds in total. *)
Theorem sql_call_budget (query : string) (max_retries : Z) (s : State) :
  exists d,
    trace (snd (sql query max_retries s)) = (trace s ++ d)%list /\
    (List.length (connects_of d) <= 3 * Z.to_nat max_retries)%nat /\
    (List.length (executes_of d) <= Z.to_nat max_retries)%nat /\
    Forall (eq query) (executes_of d) /\
    Zsum (sleeps_of d) <= Z.max 0 (2 ^ max_retries - 2).
Proof.
  unfold sql.
  destruct (within_sql_loop (Z.to_nat max_retries) query max_retries 0 ltac:(lia) s)
    as [d [Hd [H1 [H2 [H3 H4]]]]].
  rewrite Z.sub_0_r in *. exists d. repeat split; auto.
  destruct (0 <? max_retries); simpl in H4; lia.
Qed.

(** *** Connection lifecycle *)

(** X2. On a session that holds a connection and a cursor an attempt
    does not connect again and opens no cursor: it submits the statement
    on the cursor it has, calls [fetchall] exactly when the execute
    returned and reading [cursor.description] did not raise, and keeps
    both fields. *)
Theorem attempt_reuses_connection (query : string) (s : State) (c : Conn) (k : Cursor) :
  connection s = Some c -> cursor s = Some k ->
  let s' := snd (attempt query s) in
  connection s' = Some c /\ cursor s' = Some k /\
  trace s' =
    (trace s ++
     EExecute k query ::
     match cursor_execute db k query (world s) with
     | (Returns _, w1) =>
         match cursor_description db k w1 with
         | Returns _ => [EFetchall k]
         | Throws _ => []
         end
     | (Throws _, _) => []
     end)%list.
Proof.
  destruct s as [c0 k0 w tr]. simpl. intros -> ->.
  unfold attempt, _ensure_connection, bind, get_connection_field, get_cursor_field,
    ret, call, read, lift_reply. simpl.
  destruct (cursor_execute db k query w) as [[[]|e] w1]; simpl; [|auto].
  destruct (cursor_description db k w1) as [description|e]; simpl; [|auto].
  destruct (cursor_fetchall db k w1) as [[data|e] w2]; simpl;
    [|rewrite <- app_assoc; auto].
  destruct (pd_DataFrame pd data _) as [df|e]; simpl; rewrite <- app_assoc; auto.
Qed.

(** A successful attempt leaves the session with a connection and a
    cursor. *)
Lemma attempt_success_connected (query : string) (s s' : State) (df : DataFrame) :
  attempt query s = (Ok df, s') ->
  exists c k, connection s' = Some c /\ cursor s' = Some k.
Proof.
  unfold attempt, bind.
  destruct (_ensure_connection s) as [[[]|e|] s1]; try discriminate.
  unfold get_connection_field, get_cursor_field. simpl.
  destruct (connection s1) as [c|] eqn:Ec; destruct (cursor s1) as [k|] eqn:Ek;
    try discriminate.
  unfold call, read, lift_reply, ret, raise. simpl.
  destruct (cursor_execute db k query (world s1)) as [[[]|e] w1]; simpl; try discriminate.
  destruct (cursor_description db k w1) as [description|e]; simpl; try discriminate.
  destruct (cursor_fetchall db k w1) as [[data|e] w2]; simpl; try discriminate.
  destruct (pd_DataFrame pd data _) as [df'|e]; simpl; try discriminate.
  intro H. inversion H; subst. simpl. rewrite Ec, Ek. eauto.
Qed.

Lemma sql_loop_coherent (fuel : nat) (query : string) (max_retries : Z) :
  forall retries s,
    (Z.to_nat (max_retries - retries) <= fuel)%nat -> retries < max_retries ->
    let r := sql_loop fuel query max_retries retries s in
    (exists c k df,
        fst r = Ok (RetDF df) /\ connection (snd r) = Some c /\ cursor (snd r) = Some k)
    \/ (fst r = Ok (RetDF empty_DataFrame) /\
        connection (snd r) = None /\ cursor (snd r) = None).
Proof.
  induction fuel as [|fuel IH]; intros retries s Hf Hlt; [lia|].
  simpl. replace (retries <? max_retries) with true by (symmetry; apply Z.ltb_lt; lia).
  unfold bind.
  destruct (attempt query s) as [[df|e|] s0] eqn:E.
  - rewrite (sql_iteration_success _ max_retries retries _ _ _ E). simpl.
    destruct (attempt_success_connected query s s0 df E) as [c [k [Hc Hk]]].
    left. exists c, k, df. auto.
  - destruct (sql_iteration_failure query max_retries retries s) as [s1 [_ [Hn [Hk H]]]].
    { rewrite E. reflexivity. }
    rewrite H. destruct (retries + 1 <? max_retries) eqn:L; simpl.
    + apply IH; [lia | apply Z.ltb_lt; exact L].
    + right. auto.
  - exfalso. apply (attempt_has_fuel query s). rewrite E. reflexivity.
Qed.

(** X3. After a call of [sql] that made at least one attempt, the
    session is either connected, with a connection and a cursor and the
    DataFrame of a successful attempt as result, or fully disconnected,
    with the empty DataFrame as result: it never keeps a connection
    without a cursor or a cursor without a connection. *)
Theorem sql_leaves_session_coherent (query : string) (max_retries : Z) (s : State) :
  0 < max_retries ->
  let r := sql query max_retries s in
  (exists c k df,
      fst r = Ok (RetDF df) /\ connection (snd r) = Some c /\ cursor (snd r) = Some k)
  \/ (fst r = Ok (RetDF empty_DataFrame) /\
      connection (snd r) = None /\ cursor (snd r) = None).
Proof.
  intro H. unfold sql. apply sql_loop_coherent; lia.
Qed.

(** X4. Tearing down closes the cursor first and the connection second,
    each once and only if the session holds it; the connection is closed
    also when closing the cursor throws. *)
Theorem _close_connection_releases_in_order (s : State) :
  trace (snd (_close_connection s)) =
    (trace s
     ++ match cursor s with Some k => [ECursorClose k] | None => [] end
     ++ match connection s with Some c => [EConnectionClose c] | None => [] end)%list.
Proof.
  unfold _close_connection, swallow, try_except, bind, call,
    get_cursor_field, get_connection_field, set_connection, set_cursor, ret.
  destruct s as [c k w tr]; simpl.
  destruct k as [cur|]; simpl.
  - destruct (cursor_close db cur w) as [[[]|e] w1]; simpl;
      destruct c as [conn|]; simpl;
      try (destruct (connection_close db conn w1) as [[[]|e'] w2]; simpl);
      try rewrite <- app_assoc; reflexivity.
  - destruct c as [conn|]; simpl;
      try (destruct (connection_close db conn w) as [[[]|e'] w2]; simpl);
      try rewrite app_nil_r; reflexivity.
Qed.

(** ** Further properties of the enumerator *)

Lemma column_values_absent (df : DataFrame) (col : string) :
  has_column df col = false ->
  column_values df col =
    match rows df with
    | [] => Returns []
    | _ :: _ => Throws (KeyError col)
    end.
Proof.
  intro H. unfold column_values.
  destruct (rows df) as [|row rs]; [reflexivity|].
  simpl. unfold row_getitem.
  rewrite positions_from_absent; [reflexivity|].
  apply str_in_false. exact H.
Qed.

(** X5. [list_catalogs] returns the cells of the column [catalog] of the
    query result, one per row in row order; when the result has no such
    column, as when the query failed, it returns the empty list, the
    [KeyError] of the first row being caught. *)
Theorem list_catalogs_reads_catalog_column (s : State) :
  exists df s1,
    spark_sql "SHOW CATALOGS" s = (Ok (RetDF df), s1) /\
    list_catalogs s =
      (Ok (if has_column df "catalog" then map (cell df "catalog") (rows df) else []), s1).
Proof.
  destruct (spark_sql_returns_DataFrame "SHOW CATALOGS" s) as [df [s1 H]].
  exists df, s1. split; [exact H|].
  unfold list_catalogs, try_except, list_catalogs_body, bind. rewrite H.
  unfold the_df, ret. simpl.
  destruct (has_column df "catalog") eqn:E.
  - rewrite (column_values_present df _ E). reflexivity.
  - rewrite (column_values_absent df _ E). destruct (rows df); reflexivity.
Qed.

(** X6. [list_tables_in_schema] reads the table names from the column
    [tableName], or else from the column [name], and returns one
    descriptor per row, in row order, for the catalog and schema it was
    given; with neither column it returns the empty list. *)
Theorem list_tables_in_schema_probes_columns (catalog schema : PyVal) (s : State) :
  exists df s1,
    spark_sql ("SHOW TABLES IN " ++ py_str catalog ++ "." ++ py_str schema) s
      = (Ok (RetDF df), s1) /\
    list_tables_in_schema catalog schema s =
      (Ok (match first_present df ["tableName"; "name"] with
           | Some col =>
               map (fun row => table_descriptor catalog schema (cell df col row)) (rows df)
           | None => []
           end), s1).
Proof.
  destruct (spark_sql_returns_DataFrame
              ("SHOW TABLES IN " ++ py_str catalog ++ "." ++ py_str schema) s)
    as [df [s1 H]].
  exists df, s1. split; [exact H|].
  apply list_tables_in_schema_of_result. exact H.
Qed.

(** The loops again, for a property that depends on the schema. *)
Lemma for_schemas_by_schema (P : Dict -> Prop) (exclude_system : bool) (catalog : PyVal) :
  (forall schema s,
      skip_system exclude_system schema s = (Ok false, s) ->
      forall name, P (table_descriptor catalog schema name)) ->
  forall (schemas : list PyVal) (acc : list Dict) (s : State) l s',
    Forall P acc ->
    for_schemas exclude_system catalog schemas acc s = (Ok l, s') ->
    Forall P l.
Proof.
  intros HP schemas. induction schemas as [|schema schemas IH];
    intros acc s l s' Hacc H; simpl in H.
  - inversion H; subst. assumption.
  - unfold bind in H.
    destruct (skip_system_pure exclude_system schema s) as [Hs _].
    destruct (skip_system exclude_system schema s) as [[skip|e|] s0] eqn:Hskip;
      simpl in Hs; subst s0; try discriminate.
    destruct skip; [exact (IH acc s l s' Hacc H)|].
    destruct (list_tables_in_schema_returns catalog schema s) as [ts [s1 [Hts Hall]]].
    rewrite Hts in H.
    apply (IH (acc ++ ts)%list s1 l s'); [|exact H].
    apply Forall_app. split; [assumption|].
    eapply Forall_impl; [|exact Hall]. intros d [name ->].
    apply (HP schema s Hskip).
Qed.

Lemma for_catalogs_by_schema (P : Dict -> Prop) (exclude_system : bool) :
  (forall catalog schema s,
      skip_system exclude_system schema s = (Ok false, s) ->
      forall name, P (table_descriptor catalog schema name)) ->
  forall (catalogs : list PyVal) (acc : list Dict) (s : State) l s',
    Forall P acc ->
    for_catalogs exclude_system catalogs acc s = (Ok l, s') ->
    Forall P l.
Proof.
  intros HP catalogs. induction catalogs as [|catalog catalogs IH];
    intros acc s l s' Hacc H; simpl in H.
  - inversion H; subst. assumption.
  - unfold bind in H.
    destruct (skip_system exclude_system catalog s) as [[skip|e|] s0]; try discriminate.
    destruct skip; [exact (IH acc s0 l s' Hacc H)|].
    destruct (list_schemas catalog s0) as [[schemas|e|] s1]; try discriminate.
    destruct (for_schemas exclude_system catalog schemas acc s1) as [[acc'|e|] s2] eqn:Hfs;
      try discriminate.
    apply (IH acc' s2 l s'); [|exact H].
    exact (for_schemas_by_schema P exclude_system catalog (HP catalog)
             schemas acc s1 acc' s2 Hacc Hfs).
Qed.

(** X7. The recursive listing with system exclusion leaves out the
    system schemas too: the schema of every descriptor it returns is a
    string that does not start with [sys] and is neither
    [information_schema] nor [system]. *)
Theorem _list_all_tables_recursive_excludes_system_schemas (s : State) :
  exists tables s',
    _list_all_tables_recursive true s = (Ok tables, s') /\
    Forall schema_ok tables.
Proof.
  destruct (_list_all_tables_recursive_returns (fun _ => True) true
              (fun _ _ _ _ _ => I) s) as [tables [s' [H _]]].
  exists tables, s'. split; [exact H|].
  unfold _list_all_tables_recursive, try_except, bind in H.
  destruct (list_catalogs s) as [[catalogs|e|] s1]; try discriminate.
  - destruct (for_catalogs true catalogs [] s1) as [[l|e|] s2] eqn:Hfc; try discriminate.
    + inversion H; subst.
      refine (for_catalogs_by_schema schema_ok true _ catalogs [] s1 tables s'
                (Forall_nil _) Hfc).
      intros catalog schema s0 Hskip name. unfold skip_system in Hskip.
      destruct schema as [sc|r]; [|discriminate].
      unfold ret in Hskip. inversion Hskip as [Hsys].
      exists sc. split; [reflexivity | exact Hsys].
    + inversion H; subst. constructor.
  - inversion H; subst. constructor.
Qed.

(** ** Host names and paths *)

Lemma append_assoc (a b c : string) : ((a ++ b) ++ c)%string = (a ++ (b ++ c))%string.
Proof. induction a as [|x a IH]; simpl; [reflexivity|]. rewrite IH. reflexivity. Qed.

Lemma append_nil_r (a : string) : (a ++ "")%string = a.
Proof. induction a as [|x a IH]; simpl; [reflexivity|]. rewrite IH. reflexivity. Qed.

Lemma prefix_app (p s : string) : String.prefix p (p ++ s) = true.
Proof.
  induction p as [|c p IH]; simpl; [destruct s; reflexivity|].
  destruct (ascii_dec c c); [exact IH | contradiction].
Qed.

Lemma str_replace_from_skip (old new p s : string) :
  str_replace_from (String.length p) old new (p ++ s) = str_replace_from 0 old new s.
Proof. induction p as [|c p IH]; simpl; [reflexivity | exact IH]. Qed.

(** An occurrence at the front is replaced and the scan goes on behind it. *)
Lemma str_replace_prefix (c : ascii) (old' new s : string) :
  str_replace (String c old') new (String c old' ++ s) =
    (new ++ str_replace (String c old') new s)%string.
Proof.
  unfold str_replace.
  change (String c old' ++ s)%string with (String c (old' ++ s)).
  cbn [str_replace_from].
  change (String c (old' ++ s)) with (String c old' ++ s)%string.
  rewrite prefix_app. f_equal.
  cbn [String.length]. rewrite Nat.sub_1_r. cbn [Nat.pred].
  apply str_replace_from_skip.
Qed.

(** Without an occurrence nothing changes. *)
Lemma str_replace_absent (old new s : string) :
  contains old s = false -> str_replace old new s = s.
Proof.
  unfold str_replace. induction s as [|c s IH]; intro H; [reflexivity|].
  cbn [contains] in H. apply orb_false_iff in H as [Hp Hc].
  cbn [str_replace_from]. rewrite Hp, (IH Hc). reflexivity.
Qed.

Lemma split_head_app (sep : ascii) (label rest : string) :
  contains (String sep "") label = false ->
  split_head sep (label ++ String sep rest) = label.
Proof.
  induction label as [|c label IH]; intro H; simpl.
  - rewrite Ascii.eqb_refl. reflexivity.
  - cbn [contains String.prefix] in H. apply orb_false_iff in H as [Hp Hc].
    destruct (ascii_dec sep c) as [->|Hne].
    + destruct label; discriminate.
    + replace (Ascii.eqb c sep) with false
        by (symmetry; apply Ascii.eqb_neq; congruence).
      rewrite (IH Hc). reflexivity.
Qed.

(** X8. For a host of the form [https://adb-<id>.<rest>] the protocol
    strategy connects to [adb-<id>.<rest>] on the path
    [/sql/protocolv1/o/<id>/<cluster id or 0>]: the scheme is stripped
    from the host and the workspace id is the first label without its
    [adb-] prefix. *)
Theorem try_protocol_workspace_path (id rest : string) (s : State) :
  DATABRICKS_HOST env = Some ("https://adb-" ++ id ++ "." ++ rest)%string ->
  contains "https://" ("adb-" ++ id ++ "." ++ rest) = false ->
  contains "." id = false ->
  contains "adb-" id = false ->
  try_protocol s =
    connect ("adb-" ++ id ++ "." ++ rest)
            ("/sql/protocolv1/o/" ++ id ++ "/"
             ++ getenv_default env "DATABRICKS_CLUSTER_ID" "0") s.
Proof.
  intros Hhost Hscheme Hdot Hadb.
  destruct (strategies_with_host _ s Hhost) as [_ [Hp _]]. rewrite Hp.
  change ("https://adb-" ++ id ++ "." ++ rest)%string
    with ("https://" ++ ("adb-" ++ id ++ "." ++ rest))%string.
  rewrite str_replace_prefix, (str_replace_absent _ _ _ Hscheme).
  cbn [append]. f_equal. unfold protocol_path. f_equal.
  unfold workspace_id_of. cbn [append split_head Ascii.eqb Bool.eqb].
  change (id ++ String "." rest)%string with (id ++ String "."%char rest)%string.
  rewrite (split_head_app "."%char id rest Hdot).
  change (String "a" (String "d" (String "b" (String "-" id))))
    with ("adb-" ++ id)%string.
  rewrite str_replace_prefix, (str_replace_absent _ _ _ Hadb). reflexivity.
Qed.

(** ** The HTTP layer *)

Lemma str_join_app (sep : string) (l1 l2 : list string) :
  l1 <> [] -> l2 <> [] ->
  str_join sep (l1 ++ l2)%list = (str_join sep l1 ++ sep ++ str_join sep l2)%string.
Proof.
  intros H1 H2. induction l1 as [|x l1 IH]; [contradiction|].
  destruct l1 as [|y l1].
  - destruct l2 as [|z l2]; [contradiction|]. reflexivity.
  - change (str_join sep ((x :: y :: l1) ++ l2)%list)
      with (x ++ sep ++ str_join sep ((y :: l1) ++ l2)%list)%string.
    rewrite IH by discriminate.
    change (str_join sep (x :: y :: l1)) with (x ++ sep ++ str_join sep (y :: l1))%string.
    repeat rewrite append_assoc. reflexivity.
Qed.

(** X9. [dict_to_sql_filter] of a dict laid out as two non-empty parts
    is the conjunction of the two filters, joined by [AND]; an empty
    dict gives the empty string, and a dict with one entry the bare
    condition [k = 'v'] with the value as [str] renders it. *)
Theorem dict_to_sql_filter_app (d1 d2 : Dict) :
  d1 <> [] -> d2 <> [] ->
  dict_to_sql_filter (d1 ++ d2)%list =
    (dict_to_sql_filter d1 ++ " AND " ++ dict_to_sql_filter d2)%string /\
  dict_to_sql_filter [] = "" /\
  (forall k v, dict_to_sql_filter [(k, v)] = (k ++ " = '" ++ py_str v ++ "'")%string).
Proof.
  intros H1 H2. split; [|split; reflexivity].
  unfold dict_to_sql_filter. rewrite map_app.
  apply str_join_app; intro E; apply map_eq_nil in E; contradiction.
Qed.

(** An endpoint that runs one statement and then answers. *)
Lemma answer_after_sql {A} (query : string) (a : A) (h : Exn -> M A) (s : State) :
  try_except (spark_sql query ;;; ret a) h s = (Ok a, snd (spark_sql query s)).
Proof.
  unfold try_except, bind.
  destruct (spark_sql_total query s) as [r [s1 H]]. rewrite H. reflexivity.
Qed.

Lemma spark_sql_budget (query : string) (s : State) :
  exists d,
    trace (snd (spark_sql query s)) = (trace s ++ d)%list /\
    (List.length (executes_of d) <= 3)%nat /\
    Forall (eq query) (executes_of d).
Proof.
  destruct (within_sql_loop (Z.to_nat 3) query 3 0 ltac:(lia) s)
    as [d [Hd [_ [Hx [Hq _]]]]].
  exists d. repeat split; auto.
Qed.

(** X10. The mutating endpoints always answer with their success body,
    never with status 500, whatever the engine does with the statement,
    because [spark.sql] swallows the failure.  What they submit, at most
    three times, is the one statement they built. *)
Theorem mutating_endpoints_always_answer (s : State) :
  (forall name filter updates,
      exists d,
        fst (update_rows name filter updates s) = Ok (Answer (StatusWhere "updated" filter)) /\
        trace (snd (update_rows name filter updates s)) = (trace s ++ d)%list /\
        (List.length (executes_of d) <= 3)%nat /\
        Forall (eq ("UPDATE " ++ name ++ " SET " ++ str_join ", " (map assignment updates)
                    ++ " WHERE " ++ dict_to_sql_filter filter)%string)
               (executes_of d)) /\
  (forall name filter,
      exists d,
        fst (delete_rows name filter s) = Ok (Answer (StatusWhere "deleted" filter)) /\
        trace (snd (delete_rows name filter s)) = (trace s ++ d)%list /\
        (List.length (executes_of d) <= 3)%nat /\
        Forall (eq ("DELETE FROM " ++ name ++ " WHERE " ++ dict_to_sql_filter filter)%string)
               (executes_of d)) /\
  (forall payload,
      exists d,
        fst (create_table payload s)
          = Ok (Answer (StatusTable "created" (payload_table_name payload))) /\
        trace (snd (create_table payload s)) = (trace s ++ d)%list /\
        (List.length (executes_of d) <= 3)%nat /\
        Forall (eq (create_table_query payload)) (executes_of d)) /\
  (forall name,
      exists d,
        fst (drop_table name s) = Ok (Answer (StatusTable "dropped" name)) /\
        trace (snd (drop_table name s)) = (trace s ++ d)%list /\
        (List.length (executes_of d) <= 3)%nat /\
        Forall (eq ("DROP TABLE " ++ name)%string) (executes_of d)).
Proof.
  repeat split; intros.
  - unfold update_rows. rewrite answer_after_sql.
    destruct (spark_sql_budget
                ("UPDATE " ++ name ++ " SET " ++ str_join ", " (map assignment updates)
                 ++ " WHERE " ++ dict_to_sql_filter filter) s) as [d [Hd [Hx Hq]]].
    exists d. auto.
  - unfold delete_rows. rewrite answer_after_sql.
    destruct (spark_sql_budget
                ("DELETE FROM " ++ name ++ " WHERE " ++ dict_to_sql_filter filter) s)
      as [d [Hd [Hx Hq]]].
    exists d. auto.
  - unfold create_table. rewrite answer_after_sql.
    destruct (spark_sql_budget (create_table_query payload) s) as [d [Hd [Hx Hq]]].
    exists d. auto.
  - unfold drop_table. rewrite answer_after_sql.
    destruct (spark_sql_budget ("DROP TABLE " ++ name) s) as [d [Hd [Hx Hq]]].
    exists d. auto.
Qed.

(** [get_table_df] is [spark.sql] on its one statement: the [except]
    branch is never taken. *)
Lemma get_table_df_returns (name : string) (s : State) :
  exists df s1,
    spark_sql ("SELECT * FROM " ++ name ++ " LIMIT 100") s = (Ok (RetDF df), s1) /\
    get_table_df name s = (Ok (RetDF df), s1).
Proof.
  destruct (spark_sql_returns_DataFrame ("SELECT * FROM " ++ name ++ " LIMIT 100") s)
    as [df [s1 H]].
  exists df, s1. split; [exact H|].
  unfold get_table_df, try_except. rewrite H. reflexivity.
Qed.

(** X11. When every attempt to read the table fails, [get_rows] answers
    404, the answer it also gives for a table without rows. *)
Theorem get_rows_not_found_on_failure (name : string) (limit : Z) (s : State) :
  attempts_fail 3 ("SELECT * FROM " ++ name ++ " LIMIT 100") 3 0 s = true ->
  fst (get_rows name limit s) = Ok (HTTPException 404 "Table not found or empty").
Proof.
  intro Hfail. unfold get_rows, bind.
  destruct (get_table_df_returns name s) as [df [s1 [Hq Hg]]].
  rewrite (spark_sql_exhausted _ s Hfail) in Hq. inversion Hq; subst.
  rewrite Hg. reflexivity.
Qed.

Lemma to_dict_records_head (df : DataFrame) (limit : Z) :
  0 <= limit ->
  to_dict_records (df_head df limit) = firstn (Z.to_nat limit) (to_dict_records df).
Proof.
  intro H. unfold to_dict_records, df_head. cbn [columns rows].
  replace (0 <=? limit) with true by (symmetry; apply Z.leb_le; exact H).
  symmetry. apply firstn_map.
Qed.

(** X12. [get_rows] never raises.  For a limit that is not negative it
    answers 404 when the DataFrame read from the table is empty, and
    otherwise with the records of its first [limit] rows, in order; so
    with at most [limit] records. *)
Theorem get_rows_first_rows (name : string) (limit : Z) (s : State) :
  0 <= limit ->
  exists df s1,
    get_table_df name s = (Ok (RetDF df), s1) /\
    get_rows name limit s =
      (Ok (if df_empty df then HTTPException 404 "Table not found or empty"
           else Answer (firstn (Z.to_nat limit) (to_dict_records df))), s1) /\
    (List.length (firstn (Z.to_nat limit) (to_dict_records df)) <= Z.to_nat limit)%nat.
Proof.
  intro H. destruct (get_table_df_returns name s) as [df [s1 [Hq Hg]]].
  exists df, s1. split; [exact Hg|]. split; [|apply firstn_le_length].
  unfold get_rows, bind. rewrite Hg. unfold the_df, ret. simpl.
  destruct (df_empty df); [reflexivity|].
  rewrite (to_dict_records_head df limit H). reflexivity.
Qed.

(** ** The longest wait *)

Lemma Zsum_backoff (k : nat) (max_retries : Z) :
  forall retries,
    0 <= retries -> (1 <= k)%nat -> retries + Z.of_nat k = max_retries ->
    Zsum (backoff k max_retries retries) = 2 ^ max_retries - 2 ^ (retries + 1).
Proof.
  induction k as [|k IH]; intros retries Hr Hk Hn; [lia|].
  cbn [backoff]. rewrite Zsum_app.
  destruct k as [|k].
  - replace (retries + 1 <? max_retries) with false by (symmetry; apply Z.ltb_ge; lia).
    simpl. replace max_retries with (retries + 1) by lia. lia.
  - replace (retries + 1 <? max_retries) with true by (symmetry; apply Z.ltb_lt; lia).
    rewrite (IH (retries + 1)) by lia.
    assert (P1 : 2 ^ (retries + 1 + 1) = 2 * 2 ^ (retries + 1))
      by (rewrite (Z.pow_add_r 2 (retries + 1) 1) by lia; change (2 ^ 1) with 2; lia).
    simpl Zsum. lia.
Qed.

(** X17. A call of [sql] whose [max_retries] attempts all fail has slept
    [2 ^ max_retries - 2] seconds when it gives up, the most a call can
    sleep. *)
Theorem sql_exhausted_sleeps_longest (query : string) (max_retries : Z) (s : State) :
  0 < max_retries ->
  attempts_fail (Z.to_nat max_retries) query max_retries 0 s = true ->
  exists d,
    trace (snd (sql query max_retries s)) = (trace s ++ d)%list /\
    Zsum (sleeps_of d) = 2 ^ max_retries - 2.
Proof.
  intros Hpos Hfail.
  assert (Hsql : sql query max_retries s =
                 (Ok (RetDF empty_DataFrame),
                  after_iterations (Z.to_nat max_retries) query max_retries 0 s)).
  { unfold sql. apply sql_loop_exhausted; auto; lia. }
  rewrite Hsql. cbn [snd].
  destruct (after_iterations_sleeps _ query max_retries 0 s Hfail) as [d [Hd Hs]].
  exists d. split; [exact Hd|]. rewrite Hs.
  rewrite (Zsum_backoff (Z.to_nat max_retries) max_retries 0) by lia.
  reflexivity.
Qed.

End Program.

(** ** Properties of the .env file *)

(** *** Stripping *)

Lemma lstrip_idempotent (s : string) : lstrip (lstrip s) = lstrip s.
Proof.
  induction s as [|c s IH]; [reflexivity|].
  simpl. destruct (is_space c) eqn:E; [exact IH|].
  simpl. rewrite E. reflexivity.
Qed.

Lemma rstrip_idempotent (s : string) : rstrip (rstrip s) = rstrip s.
Proof.
  induction s as [|c s IH]; [reflexivity|].
  simpl. destruct (String.eqb (rstrip s) "" && is_space c) eqn:E; [reflexivity|].
  simpl. rewrite IH, E. reflexivity.
Qed.

Lemma lstrip_rstrip_comm (s : string) : rstrip (lstrip s) = lstrip (rstrip s).
Proof.
  induction s as [|c s IH]; [reflexivity|].
  simpl. destruct (is_space c) eqn:E.
  - rewrite andb_true_r. destruct (String.eqb (rstrip s) "") eqn:R.
    + apply String.eqb_eq in R. rewrite IH, R. reflexivity.
    + simpl. rewrite E. exact IH.
  - rewrite andb_false_r. simpl. rewrite E, andb_false_r. reflexivity.
Qed.

Lemma strip_idempotent (s : string) : strip (strip s) = strip s.
Proof.
  unfold strip.
  rewrite (lstrip_rstrip_comm (rstrip s)), rstrip_idempotent, lstrip_idempotent.
  reflexivity.
Qed.

Lemma rstrip_app_space (s : string) (c : ascii) :
  is_space c = true -> rstrip (s ++ String c "") = rstrip s.
Proof.
  intro H. induction s as [|x s IH]; simpl.
  - rewrite H. reflexivity.
  - rewrite IH. reflexivity.
Qed.

Lemma strip_line_end (s : string) : strip (s ++ String "010" "") = strip s.
Proof. unfold strip. rewrite rstrip_app_space; reflexivity. Qed.

(** *** Characters of a string *)

Lemma string_forallb_app (p : ascii -> bool) (a b : string) :
  string_forallb p (a ++ b) = string_forallb p a && string_forallb p b.
Proof.
  induction a as [|c a IH]; simpl; [reflexivity|].
  rewrite IH, andb_assoc. reflexivity.
Qed.

Lemma string_forallb_lstrip (p : ascii -> bool) (s : string) :
  string_forallb p s = true -> string_forallb p (lstrip s) = true.
Proof.
  induction s as [|c s IH]; intro H; [reflexivity|].
  simpl in *. apply andb_prop in H as [Hc Hs].
  destruct (is_space c); [auto|]. simpl. rewrite Hc, Hs. reflexivity.
Qed.

Lemma string_forallb_rstrip (p : ascii -> bool) (s : string) :
  string_forallb p s = true -> string_forallb p (rstrip s) = true.
Proof.
  induction s as [|c s IH]; intro H; [reflexivity|].
  simpl in *. apply andb_prop in H as [Hc Hs].
  destruct (String.eqb (rstrip s) "" && is_space c); [reflexivity|].
  simpl. rewrite Hc, (IH Hs). reflexivity.
Qed.

Lemma string_forallb_strip (p : ascii -> bool) (s : string) :
  string_forallb p s = true -> string_forallb p (strip s) = true.
Proof.
  intro H. unfold strip. apply string_forallb_lstrip, string_forallb_rstrip, H.
Qed.

(** *** Lines *)

(** A line of a file is a text without line ends, followed by a line
    end or by the end of the file. *)
Lemma readlines_shape (text : string) :
  Forall (fun l => exists body,
              no_newline body = true /\ (l = body \/ l = (body ++ String "010" "")%string))
         (readlines text).
Proof.
  assert (Hnl : Forall (fun l => exists body,
              no_newline body = true /\ (l = body \/ l = (body ++ String "010" "")%string))
            [String "010" ""]).
  { constructor; [|constructor]. exists ""%string. split; [reflexivity|]. right. reflexivity. }
  remember (String.length text) as n eqn:Hn.
  revert text Hn. induction n as [n IH] using lt_wf_ind. intros text Hn.
  destruct text as [|c text]; [constructor|].
  cbn [readlines].
  assert (Hrec : forall t, (String.length t < n)%nat ->
             Forall (fun l => exists body,
               no_newline body = true /\ (l = body \/ l = (body ++ String "010" "")%string))
               (String "010" "" :: readlines t)).
  { intros t Ht. constructor; [inversion Hnl; assumption|].
    apply (IH (String.length t) Ht t eq_refl). }
  destruct (Ascii.eqb c "010") eqn:E1.
  { apply Hrec. subst n. simpl. lia. }
  destruct (Ascii.eqb c "013") eqn:E2.
  { destruct text as [|d text]; [exact Hnl|].
    destruct (Ascii.eqb d "010"); apply Hrec; subst n; simpl; lia. }
  assert (Hc : negb (is_newline c) = true).
  { unfold is_newline. rewrite E1, E2. reflexivity. }
  assert (Hrest := IH (String.length text) ltac:(subst n; simpl; lia) text eq_refl).
  destruct (readlines text) as [|l ls].
  - constructor; [|constructor]. exists (String c ""). split; [|left; reflexivity].
    unfold no_newline. simpl. rewrite Hc. reflexivity.
  - inversion Hrest as [|? ? [body [Hb Hl]] Hls]; subst.
    constructor; [|assumption].
    exists (String c body). split.
    + unfold no_newline in *. simpl. rewrite Hc, Hb. reflexivity.
    + destruct Hl as [->| ->]; [left|right]; reflexivity.
Qed.

(** The lines of a written file are the lines that were written. *)
Lemma readlines_line (body rest : string) :
  no_newline body = true ->
  readlines (body ++ String "010" rest) = (body ++ String "010" "")%string :: readlines rest.
Proof.
  unfold no_newline. induction body as [|c body IH]; intro H; simpl.
  - reflexivity.
  - simpl in H. apply andb_prop in H as [Hc Hb].
    unfold is_newline in Hc. apply negb_true_iff, orb_false_iff in Hc as [E1 E2].
    rewrite E1, E2, (IH Hb). reflexivity.
Qed.

(** *** Keys and values *)

Lemma split_head_no_sep (sep : ascii) (s : string) :
  contains (String sep "") (split_head sep s) = false.
Proof.
  induction s as [|c s IH]; [reflexivity|].
  simpl. destruct (Ascii.eqb c sep) eqn:E; [reflexivity|].
  cbn [contains String.prefix]. rewrite IH.
  destruct (ascii_dec sep c) as [->|Hne].
  - rewrite Ascii.eqb_refl in E. discriminate.
  - reflexivity.
Qed.

Lemma split_head_after_sep (sep : ascii) (s : string) :
  contains (String sep "") s = true ->
  s = (split_head sep s ++ String sep (after_sep sep s))%string.
Proof.
  induction s as [|c s IH]; intro H; [discriminate|].
  simpl. destruct (Ascii.eqb c sep) eqn:E.
  - apply Ascii.eqb_eq in E. subst. reflexivity.
  - simpl. f_equal. apply IH.
    cbn [contains String.prefix] in H.
    destruct (ascii_dec sep c) as [->|Hne].
    + rewrite Ascii.eqb_refl in E. discriminate.
    + exact H.
Qed.

Lemma split_head_append (sep : ascii) (key value : string) :
  contains (String sep "") key = false ->
  split_head sep (key ++ String sep value) = key /\
  after_sep sep (key ++ String sep value) = value.
Proof.
  induction key as [|c key IH]; intro H; simpl.
  - rewrite Ascii.eqb_refl. split; reflexivity.
  - cbn [contains String.prefix] in H. apply orb_false_iff in H as [Hp Hc].
    destruct (ascii_dec sep c) as [->|Hne].
    + destruct key; discriminate.
    + replace (Ascii.eqb c sep) with false
        by (symmetry; apply Ascii.eqb_neq; congruence).
      destruct (IH Hc) as [-> ->]. split; reflexivity.
Qed.

Lemma contains_app_sep (sep : ascii) (key value : string) :
  contains (String sep "") (key ++ String sep value) = true.
Proof.
  induction key as [|c key IH]; simpl.
  - destruct (ascii_dec sep sep); [|contradiction]. destruct value; reflexivity.
  - rewrite IH. apply orb_true_r.
Qed.

(** *** The dict *)

Lemma dict_get_set_same (d : Dict) (k : string) (v : PyVal) :
  dict_get (dict_set d k v) k = Some v.
Proof.
  induction d as [|[k' v'] d IH]; simpl.
  - rewrite String.eqb_refl. reflexivity.
  - destruct (String.eqb k' k) eqn:E; simpl; rewrite E; [reflexivity | exact IH].
Qed.

Lemma dict_get_set_other (d : Dict) (k k0 : string) (v : PyVal) :
  k0 <> k -> dict_get (dict_set d k v) k0 = dict_get d k0.
Proof.
  intro H. induction d as [|[k' v'] d IH]; simpl.
  - replace (String.eqb k k0) with false; [reflexivity|].
    symmetry. apply String.eqb_neq. congruence.
  - destruct (String.eqb k' k) eqn:E; simpl.
    + apply String.eqb_eq in E. subst k'.
      replace (String.eqb k k0) with false; [reflexivity|].
      symmetry. apply String.eqb_neq. congruence.
    + rewrite IH. reflexivity.
Qed.

Lemma dict_set_idempotent (d : Dict) (k : string) (v : PyVal) :
  dict_set (dict_set d k v) k v = dict_set d k v.
Proof.
  induction d as [|[k' v'] d IH]; simpl.
  - rewrite String.eqb_refl. reflexivity.
  - destruct (String.eqb k' k) eqn:E; simpl; rewrite E; [reflexivity|].
    rewrite IH. reflexivity.
Qed.

Lemma dict_get_None (d : Dict) (k : string) :
  dict_get d k = None <-> ~ In k (map fst d).
Proof.
  induction d as [|[k' v'] d IH]; simpl; [tauto|].
  destruct (String.eqb k' k) eqn:E.
  - apply String.eqb_eq in E. split; [discriminate | intro H; exfalso; auto].
  - apply String.eqb_neq in E. rewrite IH. tauto.
Qed.

Lemma dict_set_fresh (d : Dict) (k : string) (v : PyVal) :
  ~ In k (map fst d) -> dict_set d k v = (d ++ [(k, v)])%list.
Proof.
  induction d as [|[k' v'] d IH]; simpl; intro H; [reflexivity|].
  replace (String.eqb k' k) with false
    by (symmetry; apply String.eqb_neq; intro E; apply H; auto).
  rewrite IH by tauto. reflexivity.
Qed.

Lemma dict_set_keys (d : Dict) (k : string) (v : PyVal) :
  map fst (dict_set d k v) =
    match dict_get d k with
    | Some _ => map fst d
    | None => (map fst d ++ [k])%list
    end.
Proof.
  induction d as [|[k' v'] d IH]; simpl; [reflexivity|].
  destruct (String.eqb k' k) eqn:E; simpl; [reflexivity|].
  rewrite IH. destruct (dict_get d k); reflexivity.
Qed.

Lemma dict_set_NoDup (d : Dict) (k : string) (v : PyVal) :
  NoDup (map fst d) -> NoDup (map fst (dict_set d k v)).
Proof.
  intro H. rewrite dict_set_keys.
  destruct (dict_get d k) eqn:E; [exact H|].
  apply dict_get_None in E.
  apply NoDup_app; [exact H | constructor; [intros []|constructor] |].
  intros x Hx [<-|[]]. exact (E Hx).
Qed.

Lemma dict_set_clean (d : Dict) (k : string) (v : PyVal) :
  Forall (fun kv => clean_entry kv = true) d ->
  clean_entry (k, v) = true ->
  Forall (fun kv => clean_entry kv = true) (dict_set d k v).
Proof.
  intros Hd Hkv. induction d as [|[k' v'] d IH]; simpl.
  - constructor; [exact Hkv|constructor].
  - inversion Hd; subst. destruct (String.eqb k' k) eqn:E.
    + apply String.eqb_eq in E. subst k'. constructor; assumption.
    + constructor; [assumption|]. apply IH. assumption.
Qed.

(** *** Reading the file *)

Lemma contains_nonempty (old s : string) :
  contains old s = true -> old <> ""%string -> s <> ""%string.
Proof.
  intros H Hold ->. destruct old; [contradiction | discriminate].
Qed.

(** Every entry read from a line is clean. *)
Lemma read_env_line_clean (d : Dict) (raw : string) :
  (exists body, no_newline body = true /\
                (raw = body \/ raw = (body ++ String "010" "")%string)) ->
  Forall (fun kv => clean_entry kv = true) d -> NoDup (map fst d) ->
  Forall (fun kv => clean_entry kv = true) (read_env_line d raw) /\
  NoDup (map fst (read_env_line d raw)).
Proof.
  intros [body [Hb Hraw]] Hd Hnd. unfold read_env_line.
  assert (Hstrip : strip raw = strip body).
  { destruct Hraw as [->| ->]; [reflexivity | apply strip_line_end]. }
  rewrite Hstrip.
  destruct (negb (String.eqb (strip body) "")) eqn:E1; simpl; [|auto].
  destruct (negb (startswith (strip body) "#")) eqn:E2; simpl; [|auto].
  destruct (contains "=" (strip body)) eqn:E3; simpl; [|auto].
  split; [|apply dict_set_NoDup; exact Hnd].
  apply dict_set_clean; [exact Hd|].
  unfold clean_entry, line_of. cbn [fst snd py_str].
  change ("=" ++ after_sep "=" (strip body))%string
    with (String "=" (after_sep "=" (strip body))).
  rewrite <- (split_head_after_sep "="%char (strip body) E3).
  rewrite strip_idempotent, String.eqb_refl, E2.
  unfold no_newline in *. rewrite (string_forallb_strip _ body Hb).
  rewrite (split_head_no_sep "="%char). reflexivity.
Qed.

Lemma load_env_clean (file : option string) :
  Forall (fun kv => clean_entry kv = true) (load_env file) /\
  NoDup (map fst (load_env file)).
Proof.
  destruct file as [text|]; [|split; constructor].
  unfold load_env.
  assert (H : forall lines d,
             Forall (fun l => exists body, no_newline body = true /\
                       (l = body \/ l = (body ++ String "010" "")%string)) lines ->
             Forall (fun kv => clean_entry kv = true) d -> NoDup (map fst d) ->
             Forall (fun kv => clean_entry kv = true) (fold_left read_env_line lines d) /\
             NoDup (map fst (fold_left read_env_line lines d))).
  { induction lines as [|l lines IH]; intros d Hl Hd Hnd; simpl; [auto|].
    inversion Hl; subst.
    destruct (read_env_line_clean d l) as [Hc Hn]; auto. }
  apply H; [apply readlines_shape | constructor | constructor].
Qed.

(** Reading what was written, entry by entry. *)
Lemma read_written (d : Dict) :
  forall acc,
    Forall (fun kv => clean_entry kv = true) d ->
    NoDup (map fst (acc ++ d)%list) ->
    fold_left read_env_line (readlines (write_env d)) acc = (acc ++ d)%list.
Proof.
  induction d as [|[k v] d IH]; intros acc Hc Hnd.
  - simpl. rewrite app_nil_r. reflexivity.
  - inversion Hc as [|? ? Hkv Hrest]; subst.
    unfold clean_entry, line_of in Hkv. cbn [fst snd] in Hkv.
    destruct v as [v|r]; [|discriminate]. cbn [py_str] in Hkv.
    apply andb_prop in Hkv as [Hkv Hkey]. apply andb_prop in Hkv as [Hkv Hhash].
    apply andb_prop in Hkv as [Hstrip Hnl]. apply String.eqb_eq in Hstrip.
    apply negb_true_iff in Hkey.
    cbn [write_env py_str].
    replace (k ++ "=" ++ v ++ String "010" "" ++ write_env d)%string
      with ((k ++ "=" ++ v) ++ String "010" (write_env d))%string
      by (repeat rewrite append_assoc; reflexivity).
    rewrite (readlines_line _ _ Hnl). cbn [fold_left].
    assert (Hline : read_env_line acc ((k ++ "=" ++ v) ++ String "010" "")
                    = (acc ++ [(k, PStr v)])%list).
    { unfold read_env_line. rewrite strip_line_end, Hstrip, Hhash.
      change (k ++ "=" ++ v)%string with (k ++ String "=" v)%string.
      rewrite (contains_app_sep "="%char k v).
      destruct (split_head_append "="%char k v Hkey) as [-> ->].
      replace (String.eqb (k ++ String "=" v) "") with false
        by (symmetry; apply String.eqb_neq; destruct k; discriminate).
      simpl. apply dict_set_fresh.
      rewrite map_app in Hnd. apply NoDup_remove_2 in Hnd.
      intro Hin. apply Hnd. apply in_or_app. left. exact Hin. }
    rewrite Hline, (IH (acc ++ [(k, PStr v)])%list Hrest).
    + rewrite <- app_assoc. reflexivity.
    + rewrite <- app_assoc. exact Hnd.
Qed.

Lemma read_written_file (d : Dict) :
  Forall (fun kv => clean_entry kv = true) d ->
  NoDup (map fst d) ->
  load_env (Some (write_env d)) = d.
Proof.
  intros Hc Hnd. unfold load_env. apply (read_written d [] Hc Hnd).
Qed.

(** X13. Writing a dict and reading the file back gives the dict again,
    provided its keys are distinct and every entry is clean: its line
    [key=value] has no blank at either end and no line end inside, does
    not start with [#], and the key has no [=]. *)
Theorem load_env_write_env (d : Dict) :
  Forall (fun kv => clean_entry kv = true) d ->
  NoDup (map fst d) ->
  load_env (Some (write_env d)) = d.
Proof.
  intros Hc Hnd. unfold load_env. apply (read_written d [] Hc Hnd).
Qed.

(** What was read from a file is such a dict, even when the file held
    comments, blank lines and repeated keys. *)
Lemma load_env_rewritten (file : option string) :
  load_env (Some (write_env (load_env file))) = load_env file.
Proof.
  destruct (load_env_clean file) as [Hc Hnd]. apply read_written_file; assumption.
Qed.

(** X14. After [save_tunnel_url] with a clean, non-empty URL the file
    reads back as the old entries with [CLEARTUNNEL_URL] set to the URL:
    looking the key up gives the URL, every other key has the value it
    had, and saving the same URL again leaves the file as it is. *)
Theorem save_tunnel_url_reads_back (url : string) (file : option string) :
  url <> ""%string ->
  clean_entry ("CLEARTUNNEL_URL"%string, PStr url) = true ->
  let file' := save_tunnel_url (Some url) file in
  load_env file' = dict_set (load_env file) "CLEARTUNNEL_URL" (PStr url) /\
  dict_get (load_env file') "CLEARTUNNEL_URL" = Some (PStr url) /\
  (forall k, k <> "CLEARTUNNEL_URL"%string ->
             dict_get (load_env file') k = dict_get (load_env file) k) /\
  save_tunnel_url (Some url) file' = file'.
Proof.
  intros Hne Hclean file'.
  assert (Hfile : file' = Some (write_env (dict_set (load_env file)
                                             "CLEARTUNNEL_URL" (PStr url)))).
  { unfold file', save_tunnel_url. destruct url; [contradiction | reflexivity]. }
  assert (Hload : load_env file' = dict_set (load_env file) "CLEARTUNNEL_URL" (PStr url)).
  { rewrite Hfile. destruct (load_env_clean file) as [Hc Hnd].
    apply read_written_file; [apply dict_set_clean | apply dict_set_NoDup]; assumption. }
  split; [exact Hload|]. split; [|split].
  - rewrite Hload. apply dict_get_set_same.
  - intros k Hk. rewrite Hload. apply dict_get_set_other. exact Hk.
  - unfold save_tunnel_url at 1. destruct url; [contradiction|].
    cbn [truthy]. rewrite Hload, dict_set_idempotent. symmetry. exact Hfile.
Qed.

(** X15. [save_host_to_env] and [save_token_to_env] never replace an
    entry: when the file already has the key it is left untouched, and
    otherwise the entry is added, so that reading the file back gives
    the old value if there was one and the new one if not; every other
    key keeps its value.  An empty or missing value changes nothing. *)
Theorem save_to_env_first_value_wins (value : string) (file : option string) :
  value <> ""%string ->
  clean_entry ("DATABRICKS_HOST"%string, PStr value) = true ->
  clean_entry ("DATABRICKS_TOKEN"%string, PStr value) = true ->
  (dict_get (load_env (save_host_to_env (Some value) file)) "DATABRICKS_HOST" =
     match dict_get (load_env file) "DATABRICKS_HOST" with
     | Some old => Some old
     | None => Some (PStr value)
     end /\
   (forall old, dict_get (load_env file) "DATABRICKS_HOST" = Some old ->
                save_host_to_env (Some value) file = file) /\
   (forall k, k <> "DATABRICKS_HOST"%string ->
              dict_get (load_env (save_host_to_env (Some value) file)) k
              = dict_get (load_env file) k)) /\
  (dict_get (load_env (save_token_to_env (Some value) file)) "DATABRICKS_TOKEN" =
     match dict_get (load_env file) "DATABRICKS_TOKEN" with
     | Some old => Some old
     | None => Some (PStr value)
     end /\
   (forall old, dict_get (load_env file) "DATABRICKS_TOKEN" = Some old ->
                save_token_to_env (Some value) file = file) /\
   (forall k, k <> "DATABRICKS_TOKEN"%string ->
              dict_get (load_env (save_token_to_env (Some value) file)) k
              = dict_get (load_env file) k)) /\
  save_host_to_env (Some ""%string) file = file /\
  save_host_to_env None file = file /\
  save_token_to_env (Some ""%string) file = file /\
  save_token_to_env None file = file.
Proof.
  intros Hne Hhost Htoken.
  destruct (load_env_clean file) as [Hc Hnd].
  assert (Hgen : forall key,
             clean_entry (key, PStr value) = true ->
             let file' := match dict_get (load_env file) key with
                          | None => Some (write_env (dict_set (load_env file) key (PStr value)))
                          | Some _ => file
                          end in
             dict_get (load_env file') key =
               match dict_get (load_env file) key with
               | Some old => Some old
               | None => Some (PStr value)
               end /\
             (forall old, dict_get (load_env file) key = Some old -> file' = file) /\
             (forall k, k <> key -> dict_get (load_env file') k = dict_get (load_env file) k)).
  { intros key Hclean file'. unfold file'.
    destruct (dict_get (load_env file) key) as [old|] eqn:E.
    - repeat split; auto.
    - rewrite read_written_file;
        [|apply dict_set_clean; assumption | apply dict_set_NoDup; assumption].
      repeat split.
      + apply dict_get_set_same.
      + intros old Hold. discriminate.
      + intros k Hk. apply dict_get_set_other. exact Hk. }
  split; [|split; [|repeat split]].
  - unfold save_host_to_env. destruct value; [contradiction|]. cbn [truthy].
    exact (Hgen "DATABRICKS_HOST"%string Hhost).
  - unfold save_token_to_env. destruct value; [contradiction|]. cbn [truthy].
    exact (Hgen "DATABRICKS_TOKEN"%string Htoken).
Qed.

(** ** Properties of verify_pat *)

Lemma prefix_true_app (p s : string) :
  String.prefix p s = true -> exists r, s = (p ++ r)%string.
Proof.
  revert s. induction p as [|c p IH]; intros s H; [exists s; reflexivity|].
  destruct s as [|d s]; [discriminate|].
  simpl in H. destruct (ascii_dec c d) as [->|]; [|discriminate].
  destruct (IH s H) as [r ->]. exists r. reflexivity.
Qed.

(** The first piece of a split has no separator in it. *)
Lemma split_first_piece (sep : ascii) (s : string) :
  exists x xs, split sep s = x :: xs /\ contains (String sep "") x = false.
Proof.
  induction s as [|c s [x [xs [Hs Hx]]]]; simpl.
  - exists ""%string, []. split; reflexivity.
  - destruct (Ascii.eqb c sep) eqn:E.
    + exists ""%string, (x :: xs). rewrite Hs. split; reflexivity.
    + rewrite Hs. exists (String c x), xs. split; [reflexivity|].
      cbn [contains String.prefix]. rewrite Hx.
      destruct (ascii_dec sep c) as [->|Hne].
      * rewrite Ascii.eqb_refl in E. discriminate.
      * reflexivity.
Qed.

(** X16. With an [Authorization] header that starts with [Bearer dapi],
    [verify_pat] never fails on [auth.split(" ")[1]]: the token is the
    text between the first blank and the next one, it starts with
    [dapi], and it is the token that is checked, whatever the
    environment holds.  When the environment has no token, the header
    token is saved to the file before, and whether or not, the identity
    service accepts it. *)
Theorem verify_pat_bearer_token (env_token : option string) (auth : string)
    (identity : string -> Identity) (file : option string) :
  startswith auth "Bearer dapi" = true ->
  exists token,
    nth_error (split " " auth) 1 = Some token /\
    startswith token "dapi" = true /\
    contains " " token = false /\
    verify_pat env_token (Some auth) identity file =
      (check_token identity token,
       match truthy env_token with
       | None => save_token_to_env (Some token) file
       | Some _ => file
       end).
Proof.
  intro H. unfold startswith in H.
  destruct (prefix_true_app _ _ H) as [r ->].
  destruct (split_first_piece " "%char r) as [x [xs [Hs Hx]]].
  assert (Hsplit : split " " ("Bearer dapi" ++ r) = "Bearer"%string :: ("dapi" ++ x)%string :: xs).
  { cbn [append split Ascii.eqb Bool.eqb]. rewrite Hs. reflexivity. }
  exists ("dapi" ++ x)%string. split; [rewrite Hsplit; reflexivity|].
  split; [unfold startswith; apply prefix_app|]. split.
  - cbn [append contains String.prefix]. 
    repeat match goal with
           | |- context [ascii_dec ?a ?b] => destruct (ascii_dec a b); [discriminate|]
           end.
    exact Hx.
  - unfold verify_pat. cbn [truthy append]. 
    change (String "B" (String "e" (String "a" (String "r" (String "e" (String "r"
             (String " " (String "d" (String "a" (String "p" (String "i" r)))))))))))
      with ("Bearer dapi" ++ r)%string.
    unfold startswith. rewrite H, Hsplit. reflexivity.
Qed.

(** ** Runs on the concrete engine *)

Notation "'demo_state' w" := (init_State Demo.World w) (at level 10, w at level 9).
Notation "'demo_sql'" := (sql Demo.World Demo.engine Demo.pandas Demo.environ).
Notation "'demo_spark_sql'" := (spark_sql Demo.World Demo.engine Demo.pandas Demo.environ).
Notation "'demo_fail'" := (attempts_fail Demo.World Demo.engine Demo.pandas Demo.environ).
Notation "'demo_after'" := (after_iterations Demo.World Demo.engine Demo.pandas Demo.environ).
Notation "'demo_list_all_tables'" :=
  (list_all_tables Demo.World Demo.engine Demo.pandas Demo.environ).
Notation "'demo_recursive'" :=
  (_list_all_tables_recursive Demo.World Demo.engine Demo.pandas Demo.environ).

(** The resolver scenario: warehouse and protocol connects raise, the
    endpoint connect succeeds. *)
Example get_connection_third_strategy :
  let r := get_connection Demo.World Demo.engine Demo.environ
             (demo_state (Demo.unreachable 2)) in
  fst r = Ok (Some 1%nat) /\
  trace _ (snd r) =
    [ EConnect "adb-1234.5.azuredatabricks.net" "/sql/1.0/warehouses/abc" (Some "dapi-token");
      EConnect "adb-1234.5.azuredatabricks.net" "/sql/protocolv1/o/1234/0" (Some "dapi-token");
      EConnect "adb-1234.5.azuredatabricks.net" "/sql/1.0/endpoints/0" (Some "dapi-token") ].
Proof. split; reflexivity. Qed.

(** The retry scenario: two failures, then [SELECT 1] succeeds. *)
Example sql_two_failures_then_success :
  let r := demo_sql "SELECT 1" 3 (demo_state (Demo.flaky 2)) in
  fst r = Ok (RetDF (mkDataFrame ["1"] [[PObj "1"]])) /\
  sleeps_of (trace _ (snd r)) = [2; 4].
Proof. split; reflexivity. Qed.

Lemma sql_backoff_schedule_witness :
  (demo_fail 3%nat "SELECT 1" 3 0 (demo_state (Demo.flaky 3)) = true /\
   ((exists df s4 d,
        attempt Demo.World Demo.engine Demo.pandas Demo.environ "SELECT 1"
          (demo_after 3%nat "SELECT 1" 3 0 (demo_state (Demo.flaky 3))) = (Ok df, s4) /\
        demo_sql "SELECT 1" 3 (demo_state (Demo.flaky 3)) = (Ok (RetDF df), s4) /\
        trace _ s4 = (trace _ (demo_state (Demo.flaky 3)) ++ d)%list /\
        sleeps_of d = [2; 4; 8])
    \/
    (demo_sql "SELECT 1" 3 (demo_state (Demo.flaky 3)) =
       (Ok (RetDF empty_DataFrame),
        demo_after 3%nat "SELECT 1" 3 0 (demo_state (Demo.flaky 3))) /\
     exists d,
       trace _ (demo_after 3%nat "SELECT 1" 3 0 (demo_state (Demo.flaky 3))) =
         (trace _ (demo_state (Demo.flaky 3)) ++ d)%list /\
       sleeps_of d = [2; 4])))
  /\
  (* one failure only: the general law applies where three failures never happen *)
  (raises (fst (attempt Demo.World Demo.engine Demo.pandas Demo.environ "SELECT 1"
                  (demo_state (Demo.flaky 1)))) = true /\
   0 + 1 < 3 /\
   exists s1 d,
     sql_iteration Demo.World Demo.engine Demo.pandas Demo.environ "SELECT 1" 3 0
       (demo_state (Demo.flaky 1)) = (Ok (Continue (0 + 1)), s1) /\
     trace _ s1 = (trace _ (demo_state (Demo.flaky 1)) ++ d ++ [ESleep (2 ^ (0 + 1))])%list /\
     sleeps_of d = [])
  /\
  (demo_fail 1%nat "SELECT 1" 3 0 (demo_state (Demo.flaky 1)) = true /\
   exists df s',
     demo_sql "SELECT 1" 3 (demo_state (Demo.flaky 1)) = (Ok (RetDF df), s') /\
     exists d, trace _ s' = (trace _ (demo_state (Demo.flaky 1)) ++ d)%list /\
               sleeps_of d = [2]).
Proof.
  pose proof (sql_backoff_schedule Demo.World Demo.engine Demo.pandas Demo.environ
                "SELECT 1") as [H3 [Hlaw Hk]].
  split; [|split].
  - split; [reflexivity|].
    apply (H3 (demo_state (Demo.flaky 3))). reflexivity.
  - split; [reflexivity|]. split; [lia|].
    apply (Hlaw 3 0 (demo_state (Demo.flaky 1))); [reflexivity | lia].
  - split; [reflexivity|].
    eexists. eexists.
    apply (Hk 3 1%nat (demo_state (Demo.flaky 1))); [lia | reflexivity |].
    vm_compute. reflexivity.
Defined.

Lemma sql_exhausted_returns_empty_witness :
  0 < 3 /\
  demo_fail (Z.to_nat 3) "SELECT 1" 3 0 (demo_state (Demo.unreachable 9)) = true /\
  demo_sql "SELECT 1" 3 (demo_state (Demo.unreachable 9)) =
    (Ok (RetDF empty_DataFrame),
     demo_after (Z.to_nat 3) "SELECT 1" 3 0 (demo_state (Demo.unreachable 9))).
Proof.
  split; [lia|]. split; [reflexivity|].
  apply (sql_exhausted_returns_empty Demo.World Demo.engine Demo.pandas Demo.environ
           "SELECT 1" 3 (demo_state (Demo.unreachable 9))).
  - lia.
  - reflexivity.
Defined.

Lemma sql_no_retries_returns_None_witness :
  0 <= 0 /\
  demo_sql "SELECT 1" 0 (demo_state Demo.healthy) = (Ok RetNone, demo_state Demo.healthy).
Proof.
  split; [lia|].
  apply (sql_no_retries_returns_None Demo.World Demo.engine Demo.pandas Demo.environ
           "SELECT 1" 0 (demo_state Demo.healthy)).
  lia.
Defined.

Lemma list_all_tables_falls_back_witness :
  demo_spark_sql metadata_query (demo_state (Demo.unreachable 9)) =
    (Ok (RetDF empty_DataFrame),
     demo_after 3%nat metadata_query 3 0 (demo_state (Demo.unreachable 9))) /\
  rows empty_DataFrame = [] /\
  demo_list_all_tables (demo_state (Demo.unreachable 9)) =
    demo_recursive true
      (demo_after 3%nat metadata_query 3 0 (demo_state (Demo.unreachable 9))).
Proof.
  split; [vm_compute; reflexivity|]. split; [reflexivity|].
  refine (proj1 (list_all_tables_falls_back Demo.World Demo.engine Demo.pandas Demo.environ
                   (demo_state (Demo.unreachable 9))
                   (demo_after 3%nat metadata_query 3 0 (demo_state (Demo.unreachable 9)))
                   empty_DataFrame _ _)).
  - vm_compute; reflexivity.
  - reflexivity.
Defined.



(** On the concrete engine the primary strategy hands back the one row it
    received. *)
Example list_all_tables_primary_rows :
  fst (demo_list_all_tables (demo_state Demo.healthy)) =
    Ok [[("catalog"%string, PStr "main"); ("schema"%string, PStr "sales");
         ("name"%string, PStr "orders"); ("full_name"%string, PStr "main.sales.orders")]].
Proof. vm_compute. reflexivity. Qed.

(** The engine names the column [databaseName]; the schemas come back in
    row order. *)
Example list_schemas_of_main :
  fst (list_schemas Demo.World Demo.engine Demo.pandas Demo.environ (PStr "main")
         (demo_state Demo.healthy)) =
    Ok [PStr "sales"; PStr "sys_internal"; PStr "empty"].
Proof. vm_compute. reflexivity. Qed.



(** The failing catalog comes first and the tables of [main] are still
    returned. *)
Example recursive_listing_survives_broken_catalog :
  fst (demo_recursive true (demo_state Demo.healthy)) =
    Ok [ table_descriptor (PStr "main") (PStr "sales") (PStr "orders");
         table_descriptor (PStr "main") (PStr "sales") (PStr "customers") ].
Proof. vm_compute. reflexivity. Qed.

(** ** Runs for the further properties *)

Lemma attempt_reuses_connection_witness :
  let s := mkState Demo.World (Some 1%nat) (Some 7%nat) Demo.healthy [] in
  let s' := snd (attempt Demo.World Demo.engine Demo.pandas Demo.environ "SELECT 1" s) in
  connection _ s = Some 1%nat /\ cursor _ s = Some 7%nat /\
  connection _ s' = Some 1%nat /\ cursor _ s' = Some 7%nat /\
  trace _ s' = [EExecute 7%nat "SELECT 1"; EFetchall 7%nat].
Proof.
  intros s s'. split; [reflexivity|]. split; [reflexivity|].
  destruct (attempt_reuses_connection Demo.World Demo.engine Demo.pandas Demo.environ
              "SELECT 1" s 1%nat 7%nat eq_refl eq_refl) as [Hc [Hk Ht]].
  split; [exact Hc|]. split; [exact Hk|]. exact Ht.
Defined.

Lemma sql_leaves_session_coherent_witness :
  0 < 3 /\
  let r := demo_sql "SELECT 1" 3 (demo_state (Demo.flaky 1)) in
  (exists c k df,
      fst r = Ok (RetDF df) /\ connection _ (snd r) = Some c /\ cursor _ (snd r) = Some k)
  \/ (fst r = Ok (RetDF empty_DataFrame) /\
      connection _ (snd r) = None /\ cursor _ (snd r) = None).
Proof.
  split; [lia|].
  apply (sql_leaves_session_coherent Demo.World Demo.engine Demo.pandas Demo.environ
           "SELECT 1" 3 (demo_state (Demo.flaky 1))).
  lia.
Defined.

Lemma try_protocol_workspace_path_witness :
  DATABRICKS_HOST Demo.environ = Some "https://adb-1234.5.azuredatabricks.net"%string /\
  try_protocol Demo.World Demo.engine Demo.environ (demo_state Demo.healthy) =
    connect Demo.World Demo.engine Demo.environ
      "adb-1234.5.azuredatabricks.net" "/sql/protocolv1/o/1234/0" (demo_state Demo.healthy).
Proof.
  split; [reflexivity|].
  apply (try_protocol_workspace_path Demo.World Demo.engine Demo.environ
           "1234" "5.azuredatabricks.net" (demo_state Demo.healthy)); reflexivity.
Defined.

Lemma dict_to_sql_filter_app_witness :
  [("id"%string, PObj "7")] <> [] /\ [("name"%string, PStr "x")] <> [] /\
  dict_to_sql_filter [("id"%string, PObj "7"); ("name"%string, PStr "x")]
    = "id = '7' AND name = 'x'"%string.
Proof.
  split; [discriminate|]. split; [discriminate|].
  exact (proj1 (dict_to_sql_filter_app [("id"%string, PObj "7")] [("name"%string, PStr "x")]
                  ltac:(discriminate) ltac:(discriminate))).
Defined.

Lemma get_rows_not_found_on_failure_witness :
  demo_fail 3%nat "SELECT * FROM main.sales.orders LIMIT 100" 3 0
    (demo_state (Demo.unreachable 9)) = true /\
  fst (get_rows Demo.World Demo.engine Demo.pandas Demo.environ "main.sales.orders" 10
         (demo_state (Demo.unreachable 9)))
    = Ok (HTTPException 404 "Table not found or empty").
Proof.
  split; [vm_compute; reflexivity|].
  apply (get_rows_not_found_on_failure Demo.World Demo.engine Demo.pandas Demo.environ
           "main.sales.orders" 10 (demo_state (Demo.unreachable 9))).
  vm_compute; reflexivity.
Defined.

Lemma get_rows_first_rows_witness :
  0 <= 1 /\
  exists df s1,
    get_table_df Demo.World Demo.engine Demo.pandas Demo.environ "main.sales.orders"
      (demo_state Demo.healthy) = (Ok (RetDF df), s1) /\
    get_rows Demo.World Demo.engine Demo.pandas Demo.environ "main.sales.orders" 1
      (demo_state Demo.healthy) =
      (Ok (if df_empty df then HTTPException 404 "Table not found or empty"
           else Answer (firstn (Z.to_nat 1) (to_dict_records df))), s1) /\
    (List.length (firstn (Z.to_nat 1) (to_dict_records df)) <= Z.to_nat 1)%nat.
Proof.
  split; [lia|].
  apply (get_rows_first_rows Demo.World Demo.engine Demo.pandas Demo.environ
           "main.sales.orders" 1 (demo_state Demo.healthy)).
  lia.
Defined.

Lemma load_env_write_env_witness :
  let d := [("DATABRICKS_HOST"%string, PStr "https://adb-1.2.azuredatabricks.net");
            ("GREETING"%string, PStr "hello world")] in
  Forall (fun kv => clean_entry kv = true) d /\ NoDup (map fst d) /\
  load_env (Some (write_env d)) = d.
Proof.
  intro d.
  assert (Hc : Forall (fun kv => clean_entry kv = true) d)
    by (repeat constructor).
  assert (Hnd : NoDup (map fst d)).
  { repeat constructor; simpl; intuition discriminate. }
  split; [exact Hc|]. split; [exact Hnd|].
  exact (load_env_write_env d Hc Hnd).
Defined.

Lemma save_tunnel_url_reads_back_witness :
  let file := Some ("# settings" ++ String "010" "A=1" ++ String "010" "")%string in
  let file' := save_tunnel_url (Some "https://x.trycloudflare.com"%string) file in
  "https://x.trycloudflare.com"%string <> ""%string /\
  clean_entry ("CLEARTUNNEL_URL"%string, PStr "https://x.trycloudflare.com") = true /\
  dict_get (load_env file') "CLEARTUNNEL_URL" = Some (PStr "https://x.trycloudflare.com") /\
  save_tunnel_url (Some "https://x.trycloudflare.com"%string) file' = file'.
Proof.
  intros file file'.
  split; [discriminate|]. split; [reflexivity|].
  destruct (save_tunnel_url_reads_back "https://x.trycloudflare.com" file
              ltac:(discriminate) eq_refl) as [_ [H1 [_ H2]]].
  split; [exact H1 | exact H2].
Defined.

Lemma save_to_env_first_value_wins_witness :
  let file := Some ("DATABRICKS_HOST=https://first" ++ String "010" "")%string in
  "dapi-second"%string <> ""%string /\
  clean_entry ("DATABRICKS_HOST"%string, PStr "dapi-second") = true /\
  clean_entry ("DATABRICKS_TOKEN"%string, PStr "dapi-second") = true /\
  dict_get (load_env (save_host_to_env (Some "dapi-second"%string) file)) "DATABRICKS_HOST"
    = Some (PStr "https://first") /\
  dict_get (load_env (save_token_to_env (Some "dapi-second"%string) file)) "DATABRICKS_TOKEN"
    = Some (PStr "dapi-second").
Proof.
  intro file.
  split; [discriminate|]. split; [reflexivity|]. split; [reflexivity|].
  destruct (save_to_env_first_value_wins "dapi-second" file
              ltac:(discriminate) eq_refl eq_refl) as [[H1 _] [[H2 _] _]].
  split; [exact H1 | exact H2].
Defined.

Lemma verify_pat_bearer_token_witness :
  startswith "Bearer dapi123 trailing" "Bearer dapi" = true /\
  verify_pat (Some "dapi-env"%string) (Some "Bearer dapi123 trailing"%string)
    (fun token => Me ("user of " ++ token)) None
  = (Verified "dapi123" "user of dapi123", None).
Proof.
  split; [reflexivity|].
  destruct (verify_pat_bearer_token (Some "dapi-env"%string) "Bearer dapi123 trailing"
              (fun token => Me ("user of " ++ token)) None eq_refl)
    as [token [Hn [_ [_ Hv]]]].
  vm_compute in Hn. inversion Hn; subst. exact Hv.
Defined.

Lemma sql_exhausted_sleeps_longest_witness :
  0 < 3 /\
  demo_fail (Z.to_nat 3) "SELECT 1" 3 0 (demo_state (Demo.flaky 3)) = true /\
  exists d,
    trace _ (snd (demo_sql "SELECT 1" 3 (demo_state (Demo.flaky 3))))
      = (trace _ (demo_state (Demo.flaky 3)) ++ d)%list /\
    Zsum (sleeps_of d) = 2 ^ 3 - 2.
Proof.
  split; [lia|]. split; [reflexivity|].
  apply (sql_exhausted_sleeps_longest Demo.World Demo.engine Demo.pandas Demo.environ
           "SELECT 1" 3 (demo_state (Demo.flaky 3))).
  - lia.
  - reflexivity.
Defined.
